(** * electron-auto-updater: the Electron HTTP executor

    A shallow embedding of [ElectronHttpExecutor]
    (packages/electron-auto-updater/src/electronHttpExecutor.ts): the
    download path ([download], [doDownload]) and the API request path
    ([doApiRequest]), with the properties of their redirect handling,
    status-code handling, body interpretation and effects on the caller's
    objects.

    Asynchronous code is modelled by explicit state passing.  One attempt
    (one [net.request] and the events it triggers) costs one unit of fuel;
    a promise that is not settled when the fuel is used up is still
    pending. *)

From Stdlib Require Import Ascii.
From stdpp Require Import gmap strings list fin_maps pretty.


(** ** Strings *)

(** [sub] occurs in [s]. *)
Definition substring_of (sub s : string) : Prop :=
  ∃ pre post, s = pre +:+ sub +:+ post.

(** [String.prototype.startsWith]. *)
Fixpoint startsWith (s p : string) {struct p} : bool :=
  match p, s with
  | EmptyString, _ => true
  | String _ _, EmptyString => false
  | String a p', String b s' => if Ascii.eqb a b then startsWith s' p' else false
  end.

(** [String.prototype.includes]; [s.indexOf(sub) !== -1] is the same test. *)
Fixpoint includes (s sub : string) : bool :=
  startsWith s sub ||
  match s with
  | EmptyString => false
  | String _ s' => includes s' sub
  end.

(** The double quote character. *)
Definition dquote : string := String (Ascii.ascii_of_nat 34) "".

(** ** JavaScript values *)

Definition loc := positive.

(** What a variable or a property holds: a primitive value or a reference
    to a mutable object of the heap. *)
Inductive value :=
| VUndefined
| VNull
| VBool (b : bool)
| VNum (n : Z)
| VStr (s : string)
| VRef (l : loc).

Local Set Warnings "-register-all".

(** Data that nothing mutates, up to structural equality: what [JSON.parse]
    and [safeLoad] produce and what a promise resolves with. *)
Inductive data :=
| DUndefined
| DNull
| DBool (b : bool)
| DNum (n : Z)
| DStr (s : string)
| DArr (items : list data)
| DObj (fields : list (string * data)).

(** A mutable object: its own enumerable properties. *)
Abbreviation object := (gmap string value).
Abbreviation heap := (gmap loc object).

(** Property read [o.k]: a missing property reads as [undefined]. *)
Definition get (o : object) (k : string) : value :=
  default VUndefined (o !! k).

(** Conversion of a value inside a template literal. *)
Definition template (v : value) : string :=
  match v with
  | VUndefined => "undefined"
  | VNull => "null"
  | VBool true => "true"
  | VBool false => "false"
  | VNum n => pretty n
  | VStr s => s
  | VRef _ => "[object Object]"
  end.

(** ** Responses, errors, promises *)

(** A response header holds one string or a sequence of strings. *)
Inductive HeaderValue :=
| HSingle (s : string)
| HMany (l : list string).

Record Response := {
  statusCode : nat;
  statusMessage : string;
  headers : gmap string HeaderValue;
  body : list string          (* the chunks of the "data" events *)
}.

Inductive Err :=
| Error (message : string)                          (* new Error(message) *)
| HttpError (response : Response) (description : option data)
                                                    (* new HttpError(response, description?) *)
| TypeError (message : string)                      (* thrown by the runtime *)
| ParseError (message : string)                     (* thrown by JSON.parse or safeLoad *)
| TransportError (message : string).                (* the request's "error" event *)

Inductive Outcome :=
| Resolved (v : data)
| Rejected (e : Err).

(** A promise is pending ([None]) or settled. *)
Abbreviation Promise := (option Outcome).

(** [resolve] and [reject] of a promise: only the first call counts. *)
Definition settle (o : Outcome) (p : Promise) : Promise :=
  match p with
  | None => Some o
  | Some _ => p
  end.

(** [inner.then(resolve).catch(reject)]: the outer promise follows the inner
    one once that settles. *)
Definition follow (inner : Promise) (p : Promise) : Promise :=
  match inner with
  | Some o => settle o p
  | None => p
  end.

(** The node-style callback of the download path: not called yet, or called
    with [null] ([None]) or with an error. *)
Inductive Callback :=
| NotCalled
| Called (error : option Err).

(** ** Requests and the world *)

(** The result of [url.parse]. *)
Record Url := {
  url_protocol : value;
  url_slashes : value;
  url_auth : value;
  url_host : value;
  url_port : value;
  url_hostname : value;
  url_hash : value;
  url_search : value;
  url_query : value;
  url_pathname : value;
  url_path : value;
  url_href : value
}.

(** The own enumerable properties of a parsed URL, as [Object.assign] sees
    them. *)
Definition url_object (u : Url) : object :=
  {[ "protocol" := url_protocol u; "slashes" := url_slashes u;
     "auth" := url_auth u; "host" := url_host u; "port" := url_port u;
     "hostname" := url_hostname u; "hash" := url_hash u;
     "search" := url_search u; "query" := url_query u;
     "pathname" := url_pathname u; "path" := url_path u;
     "href" := url_href u ]}.

(** What the transport sees of a request descriptor when [net.request] is
    called: the descriptor's properties other than [headers], and the
    properties of its [headers] object when there is one. *)
Record Request := {
  req_fields : object;
  req_headers : option object
}.

(** What happens to one request: the first of the events that the handlers
    of the executor wait for.  Events after that one (a timeout or an
    error once the response has arrived) are not modelled. *)
Inductive Transport :=
| TResponse (response : Response)     (* the response callback fires *)
| TError (e : Err)                    (* the "error" event fires *)
| TTimeout                            (* the socket stays idle for 60 s *)
| TSilent.                            (* nothing happens *)

Inductive Event :=
| EvEnsureDir (dir : string)
| EvRequest (id : nat) (r : Request)
| EvBodyWriter (writer : nat) (id : nat)
| EvEnd (id : nat)
| EvAbort (id : nat)
| EvReadBody (id : nat)
| EvPipe (id : nat) (destination : string).

Abbreviation FS := (gmap string string).

Record World := {
  objects : heap;        (* mutable objects *)
  fs : FS;               (* files: path to contents *)
  issued : nat;          (* number of requests created so far *)
  trace : list Event     (* oldest first *)
}.

Definition log (e : Event) (w : World) : World :=
  {| objects := objects w; fs := fs w; issued := issued w;
     trace := trace w ++ [e] |}.

Definition with_objects (h : heap) (w : World) : World :=
  {| objects := h; fs := fs w; issued := issued w; trace := trace w |}.

Definition with_fs (f : FS) (w : World) : World :=
  {| objects := objects w; fs := f; issued := issued w; trace := trace w |}.

(** [net.request(descriptor, callback)]: a new request object. *)
Definition net_request (r : Request) (w : World) : nat * World :=
  (issued w,
   {| objects := objects w; fs := fs w; issued := S (issued w);
      trace := trace w ++ [EvRequest (issued w) r] |}).

Record DownloadOptions := {
  skipDirCreation : bool      (* an absent property counts as false *)
}.

(** ** Collaborators outside this file *)

Record Platform := {
  (** electron-builder-http *)
  maxRedirects : nat;
  safeGetHeader : Response → string → option string;
  configurePipes : DownloadOptions → Response → string → FS → FS * Callback;
  (** node: url.parse, path.dirname *)
  parseUrl : string → Url;
  dirname : string → string;
  (** JSON.parse and js-yaml's safeLoad: a value, or the exception thrown *)
  JSON_parse : string → Err + data;
  safeLoad : string → Err + data;
  (** the network: what happens to a request with this descriptor *)
  net : Request → Transport
}.

(** ** The download path *)

(** [n++]: the value of the expression, and the new value of the variable. *)
Definition post_increment (n : nat) : nat * nat := (n, S n).

(** The descriptor [doDownload] builds from the parsed URL. *)
Definition requestOpts (parsedUrl : Url) : Request :=
  {| req_fields := {[ "protocol" := url_protocol parsedUrl;
                      "hostname" := url_hostname parsedUrl;
                      "path" := url_path parsedUrl ]};
     req_headers := Some {[ "User-Agent" := VStr "electron-builder" ]} |}.

Section Download.
Context (P : Platform).

(** [doDownload(url, destination, redirectCount, options, callback)]. *)
Fixpoint doDownload (fuel : nat) (url destination : string) (redirectCount : nat)
    (options : DownloadOptions) (w : World) : World * Callback :=
  match fuel with
  | 0 => (w, NotCalled)
  | S fuel' =>
    let parsedUrl := parseUrl P url in
    let '(request, w) := net_request (requestOpts parsedUrl) w in
    let w := log (EvEnd request) w in
    match net P (requestOpts parsedUrl) with
    | TResponse response =>
      if 400 <=? statusCode response then
        (w, Called (Some (Error ("Cannot download " +:+ dquote +:+ url +:+ dquote
                                 +:+ ", status " +:+ pretty (statusCode response)
                                 +:+ ": " +:+ statusMessage response))))
      else
        match safeGetHeader P response "location" with
        | Some redirectUrl =>
          if redirectCount <? maxRedirects P then
            (* the argument is [redirectCount++] *)
            let '(count, redirectCount) := post_increment redirectCount in
            doDownload fuel' redirectUrl destination count options w
          else
            (w, Called (Some (Error ("Too many redirects (> "
                                     +:+ pretty (maxRedirects P) +:+ ")"))))
        | None =>
          let '(f, cb) := configurePipes P options response destination (fs w) in
          (with_fs f (log (EvPipe request destination) w), cb)
        end
    | TError e => (w, Called (Some e))
    | TTimeout => (log (EvAbort request) w, Called (Some (Error "Request timed out")))
    | TSilent => (w, NotCalled)
    end
  end.

(** [download(url, destination, options)]; [options] is [None] for [null] or
    [undefined]. *)
Definition download (fuel : nat) (url destination : string)
    (options : option DownloadOptions) (w : World) : World * Promise :=
  let w :=
    match options with
    | Some o => if skipDirCreation o then w else log (EvEnsureDir (dirname P destination)) w
    | None => log (EvEnsureDir (dirname P destination)) w
    end in
  let '(w, cb) := doDownload fuel url destination 0
                    (default {| skipDirCreation := false |} options) w in
  (w, match cb with
      | NotCalled => None
      | Called None => Some (Resolved (DStr destination))
      | Called (Some error) => Some (Rejected error)
      end).

End Download.

(** ** The API request path *)

(** The line feed character. *)
Definition newline : string := String (Ascii.ascii_of_nat 10) "".

(** The value of the [authorization] header for a token. *)
Definition authorization (token : string) : string :=
  if startsWith token "Basic" then token else "token " +:+ token.

(** [target.k = v].  Module code is strict: the assignment throws unless
    [target] is an object. *)
Definition set_property (h : heap) (target : value) (k : string) (v : value)
    : Err + heap :=
  match target with
  | VRef l => inr (alter (<[k := v]>) l h)
  | VUndefined | VNull =>
    inl (TypeError ("Cannot set property '" +:+ k +:+ "' of " +:+ template target))
  | _ =>
    inl (TypeError ("Cannot create property '" +:+ k +:+ "' on " +:+ template target))
  end.

(** The object a reference points to. *)
Definition deref (h : heap) (l : loc) : object := default ∅ (h !! l).

(** The start of [doApiRequest]: [requestOptions] is the caller's [options]
    object itself; the authorization header and the protocol are written
    to it. *)
Definition prepare_options (h : heap) (options : loc) (token : option string)
    : Err + heap :=
  let requestOptions := options in
  match
    match token with
    | Some token =>
      set_property h (get (deref h requestOptions) "headers")
        "authorization" (VStr (authorization token))
    | None => inr h
    end
  with
  | inl e => inl e
  | inr h => inr (alter (<["protocol" := VStr "https:"]>) requestOptions h)
  end.

(** The descriptor the transport reads from the options object. *)
Definition read_request (h : heap) (options : loc) : Request :=
  {| req_fields := delete "headers" (deref h options);
     req_headers := match deref h options !! "headers" with
                    | Some (VRef hl) => h !! hl
                    | _ => None
                    end |}.

(** [Object.assign({}, source, overrides)]: a new object holding the
    properties of [source], then those of [overrides]. *)
Definition object_assign (h : heap) (source : loc) (overrides : object)
    : loc * heap :=
  let l := fresh (dom h) in
  (l, <[l := overrides ∪ deref h source]> h).

(** The description of the 404 error. *)
Definition not_found_message (o : object) : string :=
  "method: " +:+ template (get o "method") +:+ " url: https://"
  +:+ template (get o "hostname") +:+ template (get o "path")
  +:+ newline +:+ newline
  +:+ "Please double check that your authentication token is correct. Due to security reasons actual status maybe not reported, but 404."
  +:+ newline.

(** Truthiness of what [Array.prototype.find] returns on strings. *)
Definition truthy (found : option string) : bool :=
  match found with
  | Some s => negb (String.eqb s "")
  | None => false
  end.

(** [contentType != null && contentType.find((i) => i.indexOf("json") !== -1)],
    as a condition.  A string has no [find] method. *)
Definition isJson_of (contentType : option HeaderValue) : Err + bool :=
  match contentType with
  | None => inr false
  | Some (HSingle _) => inl (TypeError "contentType.find is not a function")
  | Some (HMany l) => inr (truthy (find (λ i, includes i "json") l))
  end.

(** [path.includes(sub)]. *)
Definition path_includes (path : value) (sub : string) : Err + bool :=
  match path with
  | VStr s => inr (includes s sub)
  | VUndefined | VNull =>
    inl (TypeError ("Cannot read property 'includes' of " +:+ template path))
  | _ => inl (TypeError "options.path.includes is not a function")
  end.

(** The body as the "data" handler accumulates it. *)
Definition accumulate (chunks : list string) : string :=
  fold_left (λ data chunk, data +:+ chunk) chunks "".

(** The caller's body writer, by name. *)
Definition BodyWriter := nat.

Section Api.
Context (P : Platform).

(** The handler of the response's "end" event; [o] is the options object
    and [p] the state of the promise. *)
Definition on_end (o : object) (response : Response) (data : string)
    (p : Promise) : Promise :=
  match isJson_of (headers response !! "content-type") with
  | inl e => settle (Rejected e) p
  | inr isJson =>
    match path_includes (get o "path") ".yml" with
    | inl e => settle (Rejected e) p
    | inr isYaml =>
      if 400 <=? statusCode response then
        if isJson then
          match JSON_parse P data with
          | inl e => settle (Rejected e) p
          | inr v => settle (Rejected (HttpError response (Some v))) p
          end
        else settle (Rejected (HttpError response None)) p
      else
        if String.length data =? 0 then settle (Resolved DNull) p
        else if isJson then
          match JSON_parse P data with
          | inl e => settle (Rejected e) p
          | inr v => settle (Resolved v) p
          end
        else if isYaml then
          match safeLoad P data with
          | inl e => settle (Rejected e) p
          | inr v => settle (Resolved v) p
          end
        else settle (Resolved (DStr data)) p
    end
  end.

(** [doApiRequest(options, token, requestProcessor, redirectCount = 0)]:
    the world afterwards and either the exception thrown by the call or the
    promise it returns.  [redirectCount] is [None] when the argument is
    omitted.  The line written to the debug log and the cancellation
    handler are left out. *)
Fixpoint doApiRequest (fuel : nat) (options : loc) (token : option string)
    (requestProcessor : BodyWriter) (redirectCount : option nat) (w : World)
    : World * (Err + Promise) :=
  match fuel with
  | 0 => (w, inr None)
  | S fuel' =>
    let redirectCount := default 0 redirectCount in
    match prepare_options (objects w) options token with
    | inl e => (w, inl e)
    | inr h =>
      let w := with_objects h w in
      let '(request, w) := net_request (read_request h options) w in
      let w := log (EvBodyWriter requestProcessor request) w in
      match net P (read_request h options) with
      | TResponse response =>
        let o := deref h options in
        let continue (p : Promise) : World * (Err + Promise) :=
          match safeGetHeader P response "location" with
          | Some redirectUrl =>
            if 10 <? redirectCount then
              (w, inr (settle (Rejected (Error "Too many redirects (> 10)")) p))
            else
              let '(l, h) :=
                object_assign h options (url_object (parseUrl P redirectUrl)) in
              (* no redirect count is passed on *)
              match doApiRequest fuel' l token requestProcessor None
                      (with_objects h w) with
              | (w, inl e) => (w, inr (settle (Rejected e) p))
              | (w, inr inner) => (w, inr (follow inner p))
              end
          | None =>
            (log (EvReadBody request) w,
             inr (on_end o response (accumulate (body response)) p))
          end in
        if statusCode response =? 404 then
          (* [reject] is not followed by [return]: the handler goes on *)
          continue (settle (Rejected (HttpError response
                                        (Some (DStr (not_found_message o))))) None)
        else if statusCode response =? 204 then
          (* [resolve()] *)
          (w, inr (settle (Resolved DUndefined) None))
        else continue None
      | TError e => (w, inr (Some (Rejected e)))
      | TTimeout =>
        (log (EvAbort request) w, inr (Some (Rejected (Error "Request timed out"))))
      | TSilent => (w, inr None)
      end
    end
  end.

End Api.

(** ** Reading a trace *)

(** The descriptors of the requests created, oldest first. *)
Definition requests_of (t : list Event) : list Request :=
  omap (λ e, match e with EvRequest _ r => Some r | _ => None end) t.

(** The requests created, by number. *)
Definition request_ids (t : list Event) : list nat :=
  omap (λ e, match e with EvRequest id _ => Some id | _ => None end) t.

(** The requests the body writer [writer] was applied to, oldest first. *)
Definition written_by (writer : BodyWriter) (t : list Event) : list nat :=
  omap (λ e, match e with
             | EvBodyWriter w id => if decide (w = writer) then Some id else None
             | _ => None
             end) t.

(** A descriptor that [doDownload] builds for some URL. *)
Definition download_descriptor (P : Platform) (r : Request) : Prop :=
  ∃ u, r = requestOpts (parseUrl P u).

(** A descriptor made for the redirect target [redirectUrl]: it has the
    properties of the parsed URL, but for the protocol, which is
    [https:]. *)
Definition redirected_descriptor (P : Platform) (r : Request) : Prop :=
  ∃ redirectUrl,
    get (req_fields r) "protocol" = VStr "https:"
    ∧ ∀ k v, url_object (parseUrl P redirectUrl) !! k = Some v →
             k ≠ "protocol" → get (req_fields r) k = v.

(** ** A concrete platform

    Stand-ins for the collaborators, used to run the executor on examples:
    small parsers for URLs, JSON and one-line YAML mappings, and a server
    that answers by request path. *)

Module Sample.

(** [s] up to the first [c], and what follows that [c]. *)
Fixpoint split_at (c : ascii) (s : string) : string * option string :=
  match s with
  | EmptyString => ("", None)
  | String a s' =>
    if Ascii.eqb a c then ("", Some s')
    else let '(before, after) := split_at c s' in (String a before, after)
  end.

(** URLs of the form [scheme://host[:port][/path]]; anything else is taken
    as a path. *)
Definition parseUrl (url : string) : Url :=
  match split_at ":" url with
  | (scheme, Some (String "/" (String "/" rest))) =>
    let '(host, p) := split_at "/" rest in
    let path := match p with Some p => "/" +:+ p | None => "/" end in
    let '(hostname, port) := split_at ":" host in
    {| url_protocol := VStr (scheme +:+ ":"); url_slashes := VBool true;
       url_auth := VNull; url_host := VStr host;
       url_port := from_option VStr VNull port; url_hostname := VStr hostname;
       url_hash := VNull; url_search := VNull; url_query := VNull;
       url_pathname := VStr path; url_path := VStr path; url_href := VStr url |}
  | _ =>
    {| url_protocol := VNull; url_slashes := VNull; url_auth := VNull;
       url_host := VNull; url_port := VNull; url_hostname := VNull;
       url_hash := VNull; url_search := VNull; url_query := VNull;
       url_pathname := VStr url; url_path := VStr url; url_href := VStr url |}
  end.

Definition dirname (path : string) : string :=
  String.rev (default "" (split_at "/" (String.rev path)).2).

Definition is_digit (c : ascii) : bool :=
  (48 <=? nat_of_ascii c) && (nat_of_ascii c <=? 57).

Fixpoint skip_ws (s : string) : string :=
  match s with
  | String c s' => if Ascii.is_space c then skip_ws s' else s
  | EmptyString => s
  end.

Fixpoint digits (s : string) (acc : Z) : Z * string :=
  match s with
  | String c s' =>
    if is_digit c then digits s' (10 * acc + Z.of_nat (nat_of_ascii c - 48))%Z
    else (acc, s)
  | EmptyString => (acc, s)
  end.

Fixpoint strip_prefix (p s : string) : option string :=
  match p, s with
  | EmptyString, _ => Some s
  | String a p', String b s' => if Ascii.eqb a b then strip_prefix p' s' else None
  | String _ _, EmptyString => None
  end.

(** Comma-separated items up to the closing character; [n] bounds their
    number. *)
Fixpoint items {A} (n : nat) (item : string → option (A * string))
    (close : ascii) (first : bool) (s : string) : option (list A * string) :=
  match n with
  | 0 => None
  | S n =>
    match skip_ws s with
    | String c rest =>
      if Ascii.eqb c close then Some ([], rest)
      else if first then
        '(x, s) ← item (String c rest);
        '(xs, s) ← items n item close false s;
        Some (x :: xs, s)
      else if Ascii.eqb c "," then
        '(x, s) ← item rest;
        '(xs, s) ← items n item close false s;
        Some (x :: xs, s)
      else None
    | EmptyString => None
    end
  end.

(** ["key": value]. *)
Definition member (val : string → option (data * string)) (s : string)
    : option ((string * data) * string) :=
  match skip_ws s with
  | String c rest =>
    if Ascii.eqb c (Ascii.ascii_of_nat 34) then
      match split_at (Ascii.ascii_of_nat 34) rest with
      | (k, Some after) =>
        match skip_ws after with
        | String ":" r => '(v, r) ← val r; Some ((k, v), r)
        | _ => None
        end
      | _ => None
      end
    else None
  | EmptyString => None
  end.

(** JSON without string escapes, fractions and exponents. *)
Fixpoint parse_value (fuel : nat) (s : string) : option (data * string) :=
  match fuel with
  | 0 => None
  | S fuel =>
    match skip_ws s with
    | String c rest =>
      if Ascii.eqb c "{" then
        '(ms, r) ← items (S (String.length rest)) (member (parse_value fuel)) "}" true rest;
        Some (DObj ms, r)
      else if Ascii.eqb c "[" then
        '(xs, r) ← items (S (String.length rest)) (parse_value fuel) "]" true rest;
        Some (DArr xs, r)
      else if Ascii.eqb c (Ascii.ascii_of_nat 34) then
        match split_at (Ascii.ascii_of_nat 34) rest with
        | (str, Some r) => Some (DStr str, r)
        | _ => None
        end
      else if Ascii.eqb c "-" then
        match rest with
        | String d _ =>
          if is_digit d then let '(n, r) := digits rest 0 in Some (DNum (- n), r)
          else None
        | EmptyString => None
        end
      else if is_digit c then
        let '(n, r) := digits (String c rest) 0 in Some (DNum n, r)
      else
        match strip_prefix "null" (String c rest) with
        | Some r => Some (DNull, r)
        | None =>
          match strip_prefix "true" (String c rest) with
          | Some r => Some (DBool true, r)
          | None =>
            match strip_prefix "false" (String c rest) with
            | Some r => Some (DBool false, r)
            | None => None
            end
          end
        end
    | EmptyString => None
    end
  end.

Definition JSON_parse (s : string) : Err + data :=
  match parse_value (S (String.length s)) s with
  | Some (v, r) =>
    match skip_ws r with
    | EmptyString => inr v
    | _ => inl (ParseError "Unexpected token in JSON")
    end
  | None => inl (ParseError "Unexpected token in JSON")
  end.

(** A mapping of one line, [key: value], or else a plain scalar. *)
Definition safeLoad (s : string) : Err + data :=
  match split_at ":" s with
  | (k, Some (String " " v)) => inr (DObj [(k, DStr v)])
  | _ => inr (DStr s)
  end.

(** Modelled from the spec: [safeGetHeader] of electron-builder-http, whose
    source is not part of this development; a header lookup tolerant of a
    header that is a single value or a sequence of values.  Of a sequence
    it returns the last value. *)
Definition safeGetHeader (response : Response) (headerKey : string)
    : option string :=
  match headers response !! headerKey with
  | None => None
  | Some (HSingle s) => Some s
  | Some (HMany l) => last l
  end.

(** Modelled from the spec: [configurePipes] of electron-builder-http, whose
    source is not part of this development; it streams the response body
    to the destination path, creating or truncating the file, and calls
    the callback without error when the stream is written. *)
Definition configurePipes (options : DownloadOptions) (response : Response)
    (destination : string) (f : FS) : FS * Callback :=
  (<[destination := accumulate (body response)]> f, Called None).

Definition respond (status : nat) (message : string)
    (hs : list (string * HeaderValue)) (chunks : list string) : Transport :=
  TResponse {| statusCode := status; statusMessage := message;
               headers := list_to_map hs; body := chunks |}.

(** The text of the JSON object with the one member [a], the number 1. *)
Definition json_a1 : string := "{" +:+ dquote +:+ "a" +:+ dquote +:+ ":1}".

(** The server: its answer depends on the request path only. *)
Definition net (r : Request) : Transport :=
  match get (req_fields r) "path" with
  | VStr p =>
    if String.eqb p "/loop" then
      respond 302 "Found" [("location", HMany ["https://example.com/loop"])] []
    else if String.eqb p "/moved.zip" then
      respond 301 "Moved Permanently"
        [("location", HMany ["https://example.com/file.zip"])] []
    else if String.eqb p "/file.zip" then
      respond 302 "Found" [("location", HMany ["https://example.com/file-v2.zip"])] []
    else if String.eqb p "/file-v2.zip" then
      respond 200 "OK" [] ["BY"; "TES"]
    else if String.eqb p "/missing" then
      respond 404 "Not Found" [] []
    else if String.eqb p "/deleted" then
      respond 204 "No Content" [] []
    else if String.eqb p "/no-content" then
      respond 204 "No Content" [("content-type", HMany ["application/json"])] [json_a1]
    else if String.eqb p "/release.json" then
      respond 200 "OK" [("content-type", HMany ["application/json; charset=utf-8"])]
        ["{"; dquote +:+ "a" +:+ dquote; ":1}"]
    else if String.eqb p "/single" then
      respond 200 "OK" [("content-type", HSingle "application/json")] [json_a1]
    else if String.eqb p "/boom" then
      respond 500 "Internal Server Error" [("content-type", HMany ["application/json"])]
        ["{" +:+ dquote +:+ "message" +:+ dquote +:+ ":"
         +:+ dquote +:+ "boom" +:+ dquote +:+ "}"]
    else if String.eqb p "/latest.yml" then
      respond 200 "OK" [("content-type", HMany ["application/octet-stream"])]
        ["version: 1.2.3"]
    else TError (TransportError "net::ERR_CONNECTION_REFUSED")
  | _ => TError (TransportError "net::ERR_INVALID_URL")
  end.

(** A server that answers every request with the same redirect. *)
Definition net_loop (r : Request) : Transport :=
  respond 302 "Found" [("location", HMany ["https://example.com/loop"])] [].

(** The collaborators above, with a redirect bound of 10. *)
Definition platform : Platform :=
  Build_Platform 10 safeGetHeader configurePipes parseUrl dirname
    JSON_parse safeLoad net.

(** The same with a redirect bound of 1. *)
Definition strict : Platform :=
  Build_Platform 1 safeGetHeader configurePipes parseUrl dirname
    JSON_parse safeLoad net.

(** The collaborators above against the server that always redirects. *)
Definition looping : Platform :=
  Build_Platform 10 safeGetHeader configurePipes parseUrl dirname
    JSON_parse safeLoad net_loop.

(** The caller's options object (at [options]) and its headers object (at
    [headers_loc]). *)
Definition options : loc := 1%positive.
Definition headers_loc : loc := 2%positive.

Definition caller_options (path : string) : object :=
  {[ "method" := VStr "GET"; "protocol" := VStr "http:";
     "hostname" := VStr "api.github.com"; "path" := VStr path;
     "headers" := VRef headers_loc ]}.

Definition caller_headers : object :=
  {[ "Accept" := VStr "application/vnd.github.v3+json" ]}.

Definition world (path : string) : World :=
  {| objects := {[ options := caller_options path; headers_loc := caller_headers ]};
     fs := ∅; issued := 0; trace := [] |}.

End Sample.

(** ** More of the trace *)

(** The directories that [ensureDir] was asked for. *)
Definition ensured_dirs (t : list Event) : list string :=
  omap (λ e, match e with EvEnsureDir dir => Some dir | _ => None end) t.

(** The requests ended by [request.end()]. *)
Definition ended_ids (t : list Event) : list nat :=
  omap (λ e, match e with EvEnd id => Some id | _ => None end) t.

(** The requests aborted by [request.abort()]. *)
Definition aborted_ids (t : list Event) : list nat :=
  omap (λ e, match e with EvAbort id => Some id | _ => None end) t.

(** The responses piped to a file: the request and the destination. *)
Definition piped (t : list Event) : list (nat * string) :=
  omap (λ e, match e with EvPipe id destination => Some (id, destination) | _ => None end) t.

(** The requests whose response body was read. *)
Definition body_reads (t : list Event) : list nat :=
  omap (λ e, match e with EvReadBody id => Some id | _ => None end) t.

(** How a run of [doDownload] that started in [w] with the callback state
    [cb] at the end can have ended: with no effect on files, by a timeout
    that aborts the last request, or by piping a final response. *)
Definition download_ending (P : Platform) (options : DownloadOptions)
    (destination : string) (w w' : World) (cb : Callback) (new : list Event)
    : Prop :=
  (aborted_ids new = [] ∧ piped new = [] ∧ fs w' = fs w ∧ cb ≠ Called None)
  ∨ (aborted_ids new = [pred (issued w')] ∧ piped new = [] ∧ fs w' = fs w
     ∧ cb = Called (Some (Error "Request timed out"))
     ∧ last new = Some (EvAbort (pred (issued w'))))
  ∨ (aborted_ids new = [] ∧ piped new = [(pred (issued w'), destination)]
     ∧ last new = Some (EvPipe (pred (issued w')) destination)
     ∧ ∃ response,
         statusCode response < 400
         ∧ safeGetHeader P response "location" = None
         ∧ configurePipes P options response destination (fs w) = (fs w', cb)).

(** The redirect URL that the response handler of [doApiRequest] follows
    after the request [r], when it follows one: the request is answered
    by a response with a status other than 204 and a location header. *)
Definition redirects (P : Platform) (r : Request) : option string :=
  match net P r with
  | TResponse response =>
    if statusCode response =? 204 then None
    else safeGetHeader P response "location"
  | _ => None
  end.

(** [r'] is the request of the redirect hop after the request [r]: [r] is
    answered by a redirect, and the descriptor of [r'] has the protocol
    [https:], the other properties of the parsed redirect URL, and
    beyond these the properties of the descriptor of [r]. *)
Definition hop (P : Platform) (r r' : Request) : Prop :=
  ∃ redirectUrl,
    redirects P r = Some redirectUrl
    ∧ get (req_fields r') "protocol" = VStr "https:"
    ∧ (∀ k v, url_object (parseUrl P redirectUrl) !! k = Some v →
              k ≠ "protocol" → get (req_fields r') k = v)
    ∧ (∀ k, url_object (parseUrl P redirectUrl) !! k = None →
            k ≠ "protocol" → k ≠ "authorization" →
            get (req_fields r') k = get (req_fields r) k).

(** The headers object once [doApiRequest] has written the authorization
    header for the token, if there is one. *)
Definition with_authorization (token : option string) (headers : object)
    : object :=
  match token with
  | Some t => <["authorization" := VStr (authorization t)]> headers
  | None => headers
  end.

(** What a request that [doApiRequest] makes for a caller with the method
    [method] and the headers [headers] looks like. *)
Definition api_descriptor (method : value) (headers : object) (r : Request)
    : Prop :=
  get (req_fields r) "protocol" = VStr "https:"
  ∧ get (req_fields r) "method" = method
  ∧ req_headers r = Some headers.

(** How a run of [doApiRequest] can have ended, [last] being the last
    request made: without reading a body or aborting, by reading the
    body of the last response, or by aborting the last request. *)
Definition api_ending (last : nat) (new : list Event) : Prop :=
  (body_reads new = [] ∧ aborted_ids new = [])
  ∨ (body_reads new = [last] ∧ aborted_ids new = [])
  ∨ (body_reads new = [] ∧ aborted_ids new = [last]).

(** ** More cases for the examples *)

Module Cases.

(** A server that answers [/gone] with status 404 and a location header,
    [/broken] with status 502 and a body that is no JSON, and anything
    else with status 200 and no body. *)
Definition net (r : Request) : Transport :=
  match get (req_fields r) "path" with
  | VStr p =>
    if String.eqb p "/gone" then
      Sample.respond 404 "Not Found"
        [("location", HMany ["https://example.com/landing"])] []
    else if String.eqb p "/broken" then
      Sample.respond 502 "Bad Gateway" [("content-type", HMany ["text/html"])]
        ["<html>"; "</html>"]
    else Sample.respond 200 "OK" [] []
  | _ => TError (TransportError "net::ERR_INVALID_URL")
  end.

Definition platform : Platform :=
  Build_Platform 10 Sample.safeGetHeader Sample.configurePipes Sample.parseUrl
    Sample.dirname Sample.JSON_parse Sample.safeLoad net.

(** A caller whose options object has no headers. *)
Definition bare_world : World :=
  {| objects := {[ Sample.options := {[ "method" := VStr "GET";
                                        "hostname" := VStr "api.github.com";
                                        "path" := VStr "/repos" ]} ]};
     fs := ∅; issued := 0; trace := [] |}.

End Cases.

(** * Properties *)

(** ** The executor on the sample platform *)

(** A download redirected once: the file holds the body of the final
    response. *)
Example download_follows_redirect :
  snd (download Sample.platform 2 "https://example.com/file.zip" "/tmp/out.zip" None
         (Sample.world "/"))
    = Some (Resolved (DStr "/tmp/out.zip"))
  ∧ fs (download Sample.platform 2 "https://example.com/file.zip" "/tmp/out.zip" None
          (Sample.world "/")).1 !! "/tmp/out.zip" = Some "BYTES"
  ∧ request_ids (trace (download Sample.platform 2 "https://example.com/file.zip"
                          "/tmp/out.zip" None (Sample.world "/")).1) = [0; 1].
Proof. repeat split; vm_compute; reflexivity. Qed.

(** With a redirect bound of 1, a download redirected twice is carried
    out all the same. *)
Example download_redirected_twice :
  maxRedirects Sample.strict = 1
  ∧ snd (download Sample.strict 3 "https://example.com/moved.zip" "/tmp/out.zip" None
           (Sample.world "/"))
    = Some (Resolved (DStr "/tmp/out.zip"))
  ∧ request_ids (trace (download Sample.strict 3 "https://example.com/moved.zip"
                          "/tmp/out.zip" None (Sample.world "/")).1) = [0; 1; 2].
Proof. repeat split; vm_compute; reflexivity. Qed.

(** The port of the URL does not reach the descriptor. *)
Example download_port_dropped :
  url_port (Sample.parseUrl "https://example.com:8080/file.zip") = VStr "8080"
  ∧ map_to_list (req_fields (requestOpts (Sample.parseUrl
                                            "https://example.com:8080/file.zip")))
    ≡ₚ [("protocol", VStr "https:"); ("hostname", VStr "example.com");
        ("path", VStr "/file.zip")].
Proof.
  split; [reflexivity|].
  unfold requestOpts. cbn [req_fields].
  rewrite !map_to_list_insert, map_to_list_singleton by done.
  reflexivity.
Qed.

(** A YAML body, recognised by the request path. *)
Example request_yaml :
  snd (doApiRequest Sample.platform 1 Sample.options None 0 None
         (Sample.world "/latest.yml"))
  = inr (Some (Resolved (DObj [("version", DStr "1.2.3")]))).
Proof. vm_compute. reflexivity. Qed.

(** A status of 500 with a JSON body: the error carries the parsed body. *)
Example request_server_error :
  ∃ response,
    snd (doApiRequest Sample.platform 1 Sample.options None 0 None
           (Sample.world "/boom"))
    = inr (Some (Rejected (HttpError response
                             (Some (DObj [("message", DStr "boom")])))))
    ∧ statusCode response = 500.
Proof. eexists. split; vm_compute; reflexivity. Qed.

(** ** Strings *)

Lemma append_cons a (s t : string) : String a s +:+ t = String a (s +:+ t).
Proof. reflexivity. Qed.

Lemma append_assoc (s t u : string) : (s +:+ t) +:+ u = s +:+ t +:+ u.
Proof.
  induction s as [|a s IH]; [reflexivity|].
  rewrite !append_cons. by rewrite IH.
Qed.

Lemma append_nil_r (s : string) : s +:+ "" = s.
Proof.
  induction s as [|a s IH]; [reflexivity|].
  rewrite append_cons. by rewrite IH.
Qed.

Lemma substring_of_refl s : substring_of s s.
Proof. exists "", "". by rewrite append_nil_r. Qed.

Lemma substring_of_here sub post : substring_of sub (sub +:+ post).
Proof. by exists "", post. Qed.

Lemma substring_of_app_l sub pre s :
  substring_of sub s → substring_of sub (pre +:+ s).
Proof.
  intros (p & q & ->). exists (pre +:+ p), q. by rewrite append_assoc.
Qed.

Lemma substring_of_app_r sub s post :
  substring_of sub s → substring_of sub (s +:+ post).
Proof.
  intros (p & q & ->). exists p, (q +:+ post). by rewrite !append_assoc.
Qed.

Create HintDb substr.

#[local] Hint Resolve substring_of_refl substring_of_here
  substring_of_app_l substring_of_app_r : substr.

Lemma startsWith_spec s p : startsWith s p = true ↔ ∃ post, s = p +:+ post.
Proof.
  revert s. induction p as [|a p IH]; intros s; simpl.
  - split; [intros _; by exists s | intros _; reflexivity].
  - destruct s as [|b s].
    + split; [done | intros (post & H); rewrite append_cons in H; discriminate].
    + destruct (Ascii.eqb_spec a b) as [-> | Hne].
      * rewrite IH. split.
        -- intros (post & ->). by exists post.
        -- intros (post & H). rewrite append_cons in H.
           injection H as ->. by exists post.
      * split; [done | intros (post & H); rewrite append_cons in H].
        injection H as ? ?. congruence.
Qed.

Lemma includes_spec s sub : includes s sub = true ↔ substring_of sub s.
Proof.
  induction s as [|a s IH].
  - cbn [includes]. rewrite orb_false_r, startsWith_spec. split.
    + intros (post & ->). apply substring_of_here.
    + intros ([|? ?] & q & H); [by exists q | rewrite append_cons in H; discriminate].
  - cbn [includes]. rewrite orb_true_iff, IH, startsWith_spec. split.
    + intros [(post & ->) | H]; [apply substring_of_here|].
      by apply (substring_of_app_l _ (String a "")).
    + intros ([|b p] & q & H).
      * left. by exists q.
      * right. rewrite append_cons in H. injection H as -> ->. by exists p, q.
Qed.

Lemma includes_nonempty s sub : sub ≠ "" → includes s sub = true → s ≠ "".
Proof. intros Hsub H ->. cbn in H. destruct sub; [done | discriminate]. Qed.

(** ** The content-type test *)

Lemma truthy_find_json (l : list string) :
  truthy (find (λ i, includes i "json") l) = existsb (λ i, includes i "json") l.
Proof.
  induction l as [|a l IH]; [reflexivity|].
  cbn [find existsb]. destruct (includes a "json") eqn:Ha; [|exact IH].
  cbn [truthy orb]. apply includes_nonempty in Ha; [|done].
  apply String.eqb_neq in Ha. by rewrite Ha.
Qed.

(** C4 (amended).  When the content-type header holds a sequence of
    strings, the JSON test of [doApiRequest] evaluates without error, and
    to true exactly when some value of the sequence contains [json]; an
    absent header gives false. *)
Theorem isJson_of_sequence (l : list string) :
  isJson_of (Some (HMany l)) = inr (existsb (λ i, includes i "json") l)
  ∧ (existsb (λ i, includes i "json") l = true
     ↔ ∃ i, i ∈ l ∧ substring_of "json" i)
  ∧ isJson_of None = inr false.
Proof.
  split; [|split; [|reflexivity]].
  - cbn [isJson_of]. by rewrite truthy_find_json.
  - rewrite existsb_exists. split.
    + intros (i & Hi & H). exists i. split; [by apply list_elem_of_In|].
      by apply includes_spec.
    + intros (i & Hi & H). exists i. split; [by apply list_elem_of_In|].
      by apply includes_spec.
Qed.

(** C4 (counterexample).  A content-type header that is the single string
    [application/json] contains [json], yet the test throws; the request
    that receives it is rejected with the TypeError. *)
Lemma isJson_of_single_string_throws :
  includes "application/json" "json" = true
  ∧ isJson_of (Some (HSingle "application/json"))
    = inl (TypeError "contentType.find is not a function")
  ∧ snd (doApiRequest Sample.platform 1 Sample.options None 0 None
           (Sample.world "/single"))
    = inr (Some (Rejected (TypeError "contentType.find is not a function"))).
Proof. split; [|split]; vm_compute; reflexivity. Qed.

(** ** The download path *)

Lemma requests_of_app t1 t2 :
  requests_of (t1 ++ t2) = requests_of t1 ++ requests_of t2.
Proof. apply omap_app. Qed.

Section DownloadProperties.
Context (P : Platform).

(** C8.  A download attempt whose response has a status of 400 or more
    calls back at once with an error whose message holds the URL, the
    status code and the status message; the attempt creates its request
    and ends it, nothing else: the body is not piped and no file changes.
    At the first attempt of [download] the promise is rejected with that
    error. *)
Theorem doDownload_status_error n url destination redirectCount options w response :
  net P (requestOpts (parseUrl P url)) = TResponse response →
  400 ≤ statusCode response →
  ∃ w' message,
    doDownload P (S n) url destination redirectCount options w
      = (w', Called (Some (Error message)))
    ∧ substring_of url message
    ∧ substring_of (pretty (statusCode response)) message
    ∧ substring_of (statusMessage response) message
    ∧ fs w' = fs w
    ∧ trace w' = trace w ++ [EvRequest (issued w) (requestOpts (parseUrl P url));
                             EvEnd (issued w)]
    ∧ ∀ o, snd (download P (S n) url destination o w)
             = Some (Rejected (Error message))
           ∧ fs (fst (download P (S n) url destination o w)) = fs w.
Proof.
  intros Hnet Hstatus.
  assert (Hle : (400 <=? statusCode response) = true) by by apply Nat.leb_le.
  assert (Hstep : ∀ rc opts v,
    doDownload P (S n) url destination rc opts v
    = (log (EvEnd (issued v)) (net_request (requestOpts (parseUrl P url)) v).2,
       Called (Some (Error ("Cannot download " +:+ dquote +:+ url +:+ dquote
                            +:+ ", status " +:+ pretty (statusCode response)
                            +:+ ": " +:+ statusMessage response))))).
  { intros rc opts v. cbn [doDownload net_request]. by rewrite Hnet, Hle. }
  eexists _, _. split; [apply Hstep|].
  split; [eauto 8 with substr|].
  split; [eauto 10 with substr|].
  split; [eauto 12 with substr|].
  split; [reflexivity|].
  split; [cbn; by rewrite <- app_assoc|].
  intros o. unfold download. rewrite Hstep. cbn.
  by destruct o as [[[]]|].
Qed.

End DownloadProperties.

(** C8 (witness): the server answers 404 for [/missing]. *)
Lemma doDownload_status_error_witness :
  ∃ w' message,
    doDownload Sample.platform 1 "https://example.com/missing" "/tmp/out.zip" 0
      {| skipDirCreation := false |} (Sample.world "/")
      = (w', Called (Some (Error message)))
    ∧ substring_of "https://example.com/missing" message
    ∧ substring_of "404" message
    ∧ substring_of "Not Found" message
    ∧ fs w' = ∅.
Proof.
  destruct (doDownload_status_error Sample.platform 0
              "https://example.com/missing" "/tmp/out.zip" 0
              {| skipDirCreation := false |} (Sample.world "/")
              {| statusCode := 404; statusMessage := "Not Found";
                 headers := ∅; body := [] |})
    as (w' & message & H1 & H2 & H3 & H4 & H5 & _).
  - reflexivity.
  - cbn. lia.
  - exists w', message. repeat split; assumption.
Defined.

Section DownloadRequests.
Context (P : Platform).

Lemma doDownload_trace fuel : ∀ url destination redirectCount options w,
  ∃ new,
    trace (doDownload P fuel url destination redirectCount options w).1
      = trace w ++ new
    ∧ Forall (download_descriptor P) (requests_of new)
    ∧ head new = match fuel with
                 | 0 => None
                 | S _ => Some (EvRequest (issued w) (requestOpts (parseUrl P url)))
                 end.
Proof.
  induction fuel as [|fuel IH]; intros url destination redirectCount options w.
  { exists []. cbn. by rewrite app_nil_r. }
  assert (Hd : download_descriptor P (requestOpts (parseUrl P url))) by by exists url.
  cbn [doDownload net_request post_increment].
  set (w1 := log _ _).
  assert (Hw1 : trace w1 = trace w ++ [EvRequest (issued w) (requestOpts (parseUrl P url));
                                       EvEnd (issued w)]).
  { subst w1. cbn. by rewrite <- app_assoc. }
  clearbody w1.
  destruct (net P _) as [response|e| |].
  - destruct (400 <=? statusCode response).
    { eexists. split; [exact Hw1|]. split; [|done]. cbn. by constructor. }
    destruct (safeGetHeader P response "location") as [redirectUrl|].
    + destruct (redirectCount <? maxRedirects P).
      * destruct (IH redirectUrl destination redirectCount options w1)
          as (new & Hnew & Hall & _).
        eexists. split; [rewrite Hnew, Hw1, <- app_assoc; reflexivity|].
        split; [|done]. rewrite requests_of_app. apply Forall_app. split; [|done].
        cbn. by constructor.
      * eexists. split; [exact Hw1|]. split; [|done]. cbn. by constructor.
    + destruct (configurePipes P options response destination (fs w1)) as [f cb].
      eexists. split; [cbn; rewrite Hw1, <- app_assoc; reflexivity|].
      split; [|done]. cbn. by constructor.
  - eexists. split; [exact Hw1|]. split; [|done]. cbn. by constructor.
  - eexists. split; [cbn; rewrite Hw1, <- app_assoc; reflexivity|].
    split; [|done]. cbn. by constructor.
  - eexists. split; [exact Hw1|]. split; [|done]. cbn. by constructor.
Qed.

(** C10.  The descriptor of a download request holds the protocol, the
    hostname and the path of the parsed URL and nothing else, so no port,
    and its headers are the User-Agent header alone; every request that
    [doDownload] creates, at the first attempt and at every redirect hop,
    has such a descriptor, and the first one is that of the URL asked
    for. *)
Theorem doDownload_descriptors fuel url destination redirectCount options w :
  (∀ parsedUrl,
     dom (req_fields (requestOpts parsedUrl))
       = ({["protocol"; "hostname"; "path"]} : gset string)
     ∧ get (req_fields (requestOpts parsedUrl)) "protocol" = url_protocol parsedUrl
     ∧ get (req_fields (requestOpts parsedUrl)) "hostname" = url_hostname parsedUrl
     ∧ get (req_fields (requestOpts parsedUrl)) "path" = url_path parsedUrl
     ∧ req_fields (requestOpts parsedUrl) !! "port" = None
     ∧ req_headers (requestOpts parsedUrl)
       = Some {[ "User-Agent" := VStr "electron-builder" ]})
  ∧ ∃ new,
      trace (doDownload P fuel url destination redirectCount options w).1
        = trace w ++ new
      ∧ Forall (download_descriptor P) (requests_of new)
      ∧ head (requests_of new)
        = match fuel with
          | 0 => None
          | S _ => Some (requestOpts (parseUrl P url))
          end.
Proof.
  split.
  - intros parsedUrl. unfold requestOpts, get. cbn [req_fields req_headers].
    split; [|by simplify_map_eq].
    rewrite !dom_insert_L, dom_singleton_L. set_solver.
  - destruct (doDownload_trace fuel url destination redirectCount options w)
      as (new & Hnew & Hall & Hhead).
    exists new. split; [done|]. split; [done|].
    destruct fuel; destruct new as [|e new']; simplify_eq/=; done.
Qed.

End DownloadRequests.

(** ** The redirect count of the download path *)

Section DownloadRedirects.
Context (P : Platform).

(** The recursive call of [doDownload] receives the value of
    [redirectCount++], which is the count before the increment. *)
Lemma doDownload_redirect_step n url destination redirectCount options w response redirectUrl :
  net P (requestOpts (parseUrl P url)) = TResponse response →
  statusCode response < 400 →
  safeGetHeader P response "location" = Some redirectUrl →
  redirectCount < maxRedirects P →
  doDownload P (S n) url destination redirectCount options w
  = doDownload P n redirectUrl destination redirectCount options
      (log (EvEnd (issued w)) (net_request (requestOpts (parseUrl P url)) w).2).
Proof.
  intros Hnet Hstatus Hloc Hcount. cbn [doDownload net_request post_increment].
  rewrite Hnet, Hloc.
  assert ((400 <=? statusCode response) = false) as -> by (apply Nat.leb_gt; lia).
  by assert ((redirectCount <? maxRedirects P) = true) as -> by by apply Nat.ltb_lt.
Qed.

(** C1 (the code on a redirect chain that never ends).  With a bound of at
    least one, against a server that answers every request with a
    redirect, [doDownload] started at count 0 follows one redirect per
    attempt for as many attempts as it is given and never calls back: the
    count that reaches the next attempt is the count before the
    increment, so it stays 0 and the bound is never exceeded.  The
    promise of [download] stays pending; it is not rejected with the
    too-many-redirects error. *)
Theorem doDownload_redirect_count_stuck :
  0 < maxRedirects P →
  (∀ r, ∃ response redirectUrl,
      net P r = TResponse response ∧ statusCode response < 400
      ∧ safeGetHeader P response "location" = Some redirectUrl) →
  ∀ fuel url destination options w,
    (∃ w', doDownload P fuel url destination 0 options w = (w', NotCalled)
           ∧ issued w' = issued w + fuel)
    ∧ ∀ o, snd (download P fuel url destination o w) = None.
Proof.
  intros Hmax Hnet.
  assert (Hloop : ∀ fuel url destination options w,
    ∃ w', doDownload P fuel url destination 0 options w = (w', NotCalled)
          ∧ issued w' = issued w + fuel).
  { induction fuel as [|fuel IH]; intros url destination options w.
    { exists w. split; [reflexivity | lia]. }
    destruct (Hnet (requestOpts (parseUrl P url)))
      as (response & redirectUrl & Hr & Hstatus & Hloc).
    rewrite (doDownload_redirect_step _ _ _ _ _ _ _ _ Hr Hstatus Hloc Hmax).
    destruct (IH redirectUrl destination options
                (log (EvEnd (issued w)) (net_request (requestOpts (parseUrl P url)) w).2))
      as (w' & Hrun & Hissued).
    exists w'. split; [exact Hrun|]. rewrite Hissued. cbn. lia. }
  intros fuel url destination options w. split; [apply Hloop|].
  intros o. unfold download.
  match goal with
  | |- context [doDownload P fuel url destination 0 ?opts ?v] =>
    destruct (Hloop fuel url destination opts v) as (w' & -> & _)
  end.
  reflexivity.
Qed.

End DownloadRedirects.

(** C1 (witness): a bound of 10 and a server that always redirects; after
    25 attempts the download is still following redirects. *)
Lemma doDownload_redirect_count_stuck_witness :
  0 < maxRedirects Sample.looping
  ∧ (∃ w', doDownload Sample.looping 25 "https://example.com/loop" "/tmp/out.zip" 0
             {| skipDirCreation := false |} (Sample.world "/") = (w', NotCalled)
           ∧ issued w' = 25)
  ∧ snd (download Sample.looping 25 "https://example.com/loop" "/tmp/out.zip" None
           (Sample.world "/")) = None.
Proof.
  assert (Hmax : 0 < maxRedirects Sample.looping) by (cbn; lia).
  assert (Hnet : ∀ r, ∃ response redirectUrl,
             net Sample.looping r = TResponse response ∧ statusCode response < 400
             ∧ safeGetHeader Sample.looping response "location" = Some redirectUrl).
  { intros r. eexists _, _. split; [reflexivity|]. split; [cbn; lia | reflexivity]. }
  split; [exact Hmax|].
  split.
  - apply (doDownload_redirect_count_stuck Sample.looping Hmax Hnet 25
             "https://example.com/loop" "/tmp/out.zip"
             {| skipDirCreation := false |} (Sample.world "/")).
  - apply (doDownload_redirect_count_stuck Sample.looping Hmax Hnet 25
             "https://example.com/loop" "/tmp/out.zip"
             {| skipDirCreation := false |} (Sample.world "/")).
Defined.

(** ** Promises and the heap *)

Lemma settle_settled o x : settle o (Some x) = Some x.
Proof. reflexivity. Qed.

Lemma follow_settled inner x : follow inner (Some x) = Some x.
Proof. by destruct inner. Qed.

Lemma on_end_settled P o response data x :
  on_end P o response data (Some x) = Some x.
Proof. unfold on_end. by repeat case_match. Qed.

Lemma deref_alter_ne (f : object → object) (h : heap) l l' :
  l ≠ l' → deref (alter f l' h) l = deref h l.
Proof. intros Hne. unfold deref. by rewrite lookup_alter_ne. Qed.

Lemma get_deref_alter_insert (h : heap) l l' k k' v :
  k ≠ k' → get (deref (alter (<[k' := v]>) l' h) l) k = get (deref h l) k.
Proof.
  intros Hk. destruct (decide (l = l')) as [->|Hl]; [|by rewrite deref_alter_ne].
  unfold deref, get. rewrite lookup_alter_eq.
  destruct (h !! l') as [o|]; cbn; [|done]. by rewrite lookup_insert_ne.
Qed.

Lemma get_deref_alter_insert_eq (h : heap) l k v :
  is_Some (h !! l) → get (deref (alter (<[k := v]>) l h) l) k = v.
Proof.
  intros [y Hy]. unfold deref, get. rewrite lookup_alter_eq, Hy. cbn.
  by rewrite lookup_insert_eq.
Qed.

(** What [prepare_options] returns when it does not throw. *)
Lemma prepare_options_inr h options token h' :
  prepare_options h options token = inr h' →
  h' = alter (<["protocol" := VStr "https:"]>) options
         match token with
         | None => h
         | Some t =>
           match get (deref h options) "headers" with
           | VRef hl => alter (<["authorization" := VStr (authorization t)]>) hl h
           | _ => h
           end
         end.
Proof.
  unfold prepare_options, set_property. intros H.
  destruct token as [t|]; [|by simplify_eq].
  destruct (get (deref h options) "headers"); by simplify_eq.
Qed.

(** [prepare_options] changes the properties [protocol] and [authorization]
    only. *)
Lemma prepare_options_get h options token h' l k :
  prepare_options h options token = inr h' →
  k ≠ "protocol" → k ≠ "authorization" →
  get (deref h' l) k = get (deref h l) k.
Proof.
  intros ->%prepare_options_inr Hp Ha.
  rewrite get_deref_alter_insert by done.
  destruct token as [t|]; [|done].
  destruct (get (deref h options) "headers"); try done.
  by rewrite get_deref_alter_insert.
Qed.

Lemma prepare_options_dom h options token h' :
  prepare_options h options token = inr h' → dom h' = dom h.
Proof.
  intros ->%prepare_options_inr. rewrite dom_alter_L.
  destruct token as [t|]; [|done].
  destruct (get (deref h options) "headers"); try done.
  by rewrite dom_alter_L.
Qed.

(** ** Status codes and bodies of the API request path *)

Section ApiResponses.
Context (P : Platform).

(** Once the promise is settled, the rest of the response callback leaves
    it as it is. *)
Lemma continue_settled x (w : World) (h : heap) options token requestProcessor
    redirectCount fuel response request :
  snd (match safeGetHeader P response "location"
             return World * (Err + Promise) with
       | Some redirectUrl =>
         if 10 <? redirectCount then
           (w, inr (settle (Rejected (Error "Too many redirects (> 10)")) (Some x)))
         else
           let '(l, h) := object_assign h options (url_object (parseUrl P redirectUrl)) in
           match doApiRequest P fuel l token requestProcessor None (with_objects h w) with
           | (w, inl e) => (w, inr (settle (Rejected e) (Some x)))
           | (w, inr inner) => (w, inr (follow inner (Some x)))
           end
       | None =>
         (log (EvReadBody request) w,
          inr (on_end P (deref h options) response (accumulate (body response)) (Some x)))
       end) = inr (Some x).
Proof.
  destruct (safeGetHeader P response "location"); [|by rewrite on_end_settled].
  destruct (10 <? redirectCount); [done|].
  destruct (object_assign _ _ _) as [l h2].
  destruct (doApiRequest P fuel l token requestProcessor None (with_objects h2 w))
    as [w2 [e|inner]]; [done|].
  cbn. by rewrite follow_settled.
Qed.

(** C7.  An API request whose response has status 404 is rejected with an
    HttpError whose description holds the method, the hostname and the
    path of the request and the advice to check the authentication
    token. *)
Theorem doApiRequest_not_found n options token requestProcessor redirectCount w h
    response method hostname path :
  prepare_options (objects w) options token = inr h →
  net P (read_request h options) = TResponse response →
  statusCode response = 404 →
  get (deref (objects w) options) "method" = VStr method →
  get (deref (objects w) options) "hostname" = VStr hostname →
  get (deref (objects w) options) "path" = VStr path →
  ∃ message,
    snd (doApiRequest P (S n) options token requestProcessor redirectCount w)
      = inr (Some (Rejected (HttpError response (Some (DStr message)))))
    ∧ substring_of method message
    ∧ substring_of hostname message
    ∧ substring_of path message
    ∧ substring_of "Please double check that your authentication token is correct"
        message.
Proof.
  intros Hprep Hnet Hstatus Hm Hh Hp.
  exists (not_found_message (deref h options)). split.
  - cbn [doApiRequest]. rewrite Hprep. cbn [net_request]. rewrite Hnet, Hstatus.
    rewrite Nat.eqb_refl. apply continue_settled.
  - unfold not_found_message.
    rewrite !(prepare_options_get _ _ _ _ _ _ Hprep) by done.
    rewrite Hm, Hh, Hp. cbn [template].
    split; [eauto 8 with substr|].
    split; [eauto 10 with substr|].
    split; [eauto 12 with substr|].
    do 7 apply substring_of_app_l. apply substring_of_app_r.
    by exists "", ". Due to security reasons actual status maybe not reported, but 404.".
Qed.

(** C3 (amended).  An API request whose response has status 204 resolves
    with [undefined], the value of [resolve()], whatever the headers of
    the response are and whether or not it has a body; the request is
    created and handed to the body writer, and the body is not read. *)
Theorem doApiRequest_no_content n options token requestProcessor redirectCount w h
    response :
  prepare_options (objects w) options token = inr h →
  net P (read_request h options) = TResponse response →
  statusCode response = 204 →
  ∃ w',
    doApiRequest P (S n) options token requestProcessor redirectCount w
      = (w', inr (Some (Resolved DUndefined)))
    ∧ trace w' = trace w ++ [EvRequest (issued w) (read_request h options);
                             EvBodyWriter requestProcessor (issued w)].
Proof.
  intros Hprep Hnet Hstatus. eexists. split.
  - cbn [doApiRequest]. rewrite Hprep. cbn [net_request]. rewrite Hnet, Hstatus.
    reflexivity.
  - cbn. by rewrite <- app_assoc.
Qed.

Lemma length_zero (s : string) : (String.length s =? 0) = bool_decide (s = "").
Proof. by destruct s. Qed.

(** C9 (amended).  For an API response that is not a redirect, with a
    status below 400 other than 204, whose content-type header is absent
    or a sequence of strings (so that the JSON test gives [isJson]), and
    for a request path that is a string: the request resolves with
    [null] when the body is empty; otherwise with the body parsed as JSON
    when [isJson] holds; otherwise with the body parsed as YAML when the
    path contains [.yml]; otherwise with the body as text.  A parser that
    throws rejects the request with what it throws. *)
Theorem doApiRequest_body n options token requestProcessor redirectCount w h
    response path isJson :
  prepare_options (objects w) options token = inr h →
  net P (read_request h options) = TResponse response →
  statusCode response < 400 →
  statusCode response ≠ 204 →
  safeGetHeader P response "location" = None →
  isJson_of (headers response !! "content-type") = inr isJson →
  get (deref (objects w) options) "path" = VStr path →
  snd (doApiRequest P (S n) options token requestProcessor redirectCount w)
  = inr (Some
      (let data := accumulate (body response) in
       if bool_decide (data = "") then Resolved DNull
       else if isJson then
         match JSON_parse P data with
         | inr v => Resolved v
         | inl e => Rejected e
         end
       else if includes path ".yml" then
         match safeLoad P data with
         | inr v => Resolved v
         | inl e => Rejected e
         end
       else Resolved (DStr data))).
Proof.
  intros Hprep Hnet Hlt Hne Hloc Hjson Hpath.
  cbn [doApiRequest]. rewrite Hprep. cbn [net_request]. rewrite Hnet, Hloc.
  assert ((statusCode response =? 404) = false) as -> by (apply Nat.eqb_neq; lia).
  assert ((statusCode response =? 204) = false) as -> by by apply Nat.eqb_neq.
  cbn [snd]. unfold on_end. rewrite Hjson.
  rewrite (prepare_options_get _ _ _ _ _ _ Hprep) by done.
  rewrite Hpath. cbn [path_includes].
  assert ((400 <=? statusCode response) = false) as -> by (apply Nat.leb_gt; lia).
  rewrite length_zero. cbn zeta.
  destruct (bool_decide _); [done|].
  destruct isJson; [by destruct (JSON_parse P _)|].
  destruct (includes path ".yml"); [by destruct (safeLoad P _)|done].
Qed.

End ApiResponses.

(** The heap of the sample world once [prepare_options] has run with the
    token [abc]. *)
Lemma sample_prepare path :
  prepare_options (objects (Sample.world path)) Sample.options (Some "abc")
  = inr (alter (<["protocol" := VStr "https:"]>) Sample.options
           (alter (<["authorization" := VStr "token abc"]>) Sample.headers_loc
              (objects (Sample.world path)))).
Proof. reflexivity. Qed.

(** C7 (witness): [GET https://api.github.com/missing] is answered with
    404. *)
Lemma doApiRequest_not_found_witness :
  ∃ message,
    snd (doApiRequest Sample.platform 1 Sample.options (Some "abc") 0 None
           (Sample.world "/missing"))
      = inr (Some (Rejected (HttpError
                               {| statusCode := 404; statusMessage := "Not Found";
                                  headers := ∅; body := [] |}
                               (Some (DStr message)))))
    ∧ substring_of "GET" message
    ∧ substring_of "api.github.com" message
    ∧ substring_of "/missing" message
    ∧ substring_of "Please double check that your authentication token is correct"
        message.
Proof.
  apply (doApiRequest_not_found Sample.platform 0 Sample.options (Some "abc") 0 None
           (Sample.world "/missing") _ _ "GET" "api.github.com" "/missing"
           (sample_prepare "/missing")); reflexivity.
Defined.

(** C3 (witness): the server answers 204 for [/deleted]. *)
Lemma doApiRequest_no_content_witness :
  ∃ w',
    doApiRequest Sample.platform 1 Sample.options (Some "abc") 0 None
      (Sample.world "/deleted")
      = (w', inr (Some (Resolved DUndefined)))
    ∧ request_ids (trace w') = [0]
    ∧ written_by 0 (trace w') = [0]
    ∧ EvReadBody 0 ∉ trace w'.
Proof.
  destruct (doApiRequest_no_content Sample.platform 0 Sample.options (Some "abc") 0 None
              (Sample.world "/deleted") _
              {| statusCode := 204; statusMessage := "No Content";
                 headers := ∅; body := [] |}
              (sample_prepare "/deleted") eq_refl eq_refl)
    as (w' & Hrun & Htrace).
  exists w'. split; [exact Hrun|]. rewrite Htrace.
  split; [reflexivity|]. split; [reflexivity|].
  cbn. intros Hin. repeat (apply elem_of_cons in Hin as [Hin|Hin]; [discriminate|]).
  by apply elem_of_nil in Hin.
Defined.

(** C3 (counterexample).  The response to [/deleted] has status 204, and
    the request resolves with [undefined], which is not [null]. *)
Lemma no_content_is_not_null :
  (∃ h response,
     prepare_options (objects (Sample.world "/deleted")) Sample.options None = inr h
     ∧ net Sample.platform (read_request h Sample.options) = TResponse response
     ∧ statusCode response = 204)
  ∧ snd (doApiRequest Sample.platform 1 Sample.options None 0 None
           (Sample.world "/deleted"))
    = inr (Some (Resolved DUndefined))
  ∧ snd (doApiRequest Sample.platform 1 Sample.options None 0 None
           (Sample.world "/deleted"))
    ≠ inr (Some (Resolved DNull)).
Proof.
  split; [|split].
  - eexists _, _. split; [reflexivity|]. split; reflexivity.
  - reflexivity.
  - discriminate.
Qed.

(** C9 (witness): [/release.json] is answered with status 200, a JSON
    content type and, in three chunks, the text of the object with the
    member [a] of value 1. *)
Lemma doApiRequest_body_witness :
  accumulate ["{"; dquote +:+ "a" +:+ dquote; ":1}"] = Sample.json_a1
  ∧ snd (doApiRequest Sample.platform 1 Sample.options (Some "abc") 0 None
           (Sample.world "/release.json"))
    = inr (Some (Resolved (DObj [("a", DNum 1)]))).
Proof.
  split; [reflexivity|].
  rewrite (doApiRequest_body Sample.platform 0 Sample.options (Some "abc") 0 None
             (Sample.world "/release.json") _
             {| statusCode := 200; statusMessage := "OK";
                headers := {[ "content-type" := HMany ["application/json; charset=utf-8"] ]};
                body := ["{"; dquote +:+ "a" +:+ dquote; ":1}"] |}
             "/release.json" true (sample_prepare "/release.json")).
  - reflexivity.
  - reflexivity.
  - cbn. lia.
  - discriminate.
  - reflexivity.
  - reflexivity.
  - reflexivity.
Defined.

(** C9 (counterexample).  The response to [/no-content] is no redirect, has
    a status below 400, a JSON content type and a body holding the text of
    an object; the request path is a string.  The body is not parsed:
    the status is 204 and the request resolves with [undefined].  The
    response to [/single], of status 200 with the same body, has a
    content type that is a single string: the request is rejected. *)
Lemma no_content_body_not_parsed :
  (∃ h response,
     prepare_options (objects (Sample.world "/no-content")) Sample.options None = inr h
     ∧ net Sample.platform (read_request h Sample.options) = TResponse response
     ∧ statusCode response < 400
     ∧ safeGetHeader Sample.platform response "location" = None
     ∧ isJson_of (headers response !! "content-type") = inr true
     ∧ accumulate (body response) ≠ ""
     ∧ JSON_parse Sample.platform (accumulate (body response))
       = inr (DObj [("a", DNum 1)]))
  ∧ snd (doApiRequest Sample.platform 1 Sample.options None 0 None
           (Sample.world "/no-content"))
    ≠ inr (Some (Resolved (DObj [("a", DNum 1)])))
  ∧ (∃ h response,
       prepare_options (objects (Sample.world "/single")) Sample.options None = inr h
       ∧ net Sample.platform (read_request h Sample.options) = TResponse response
       ∧ statusCode response = 200
       ∧ safeGetHeader Sample.platform response "location" = None
       ∧ headers response !! "content-type" = Some (HSingle "application/json")
       ∧ JSON_parse Sample.platform (accumulate (body response))
         = inr (DObj [("a", DNum 1)]))
  ∧ snd (doApiRequest Sample.platform 1 Sample.options None 0 None
           (Sample.world "/single"))
    ≠ inr (Some (Resolved (DObj [("a", DNum 1)]))).
Proof.
  split; [|split; [|split]].
  - eexists _, _. split; [reflexivity|]. split; [reflexivity|].
    split; [cbn; lia|]. split; [reflexivity|]. split; [reflexivity|].
    split; [discriminate | reflexivity].
  - discriminate.
  - eexists _, _. split; [reflexivity|]. split; [reflexivity|].
    split; [reflexivity|]. split; [reflexivity|]. split; reflexivity.
  - discriminate.
Qed.

(** ** The caller's objects *)

Lemma url_object_no_headers u : url_object u !! "headers" = None.
Proof. reflexivity. Qed.

Lemma object_assign_fresh (h : heap) source overrides :
  (object_assign h source overrides).1 ∉ dom h.
Proof. apply is_fresh. Qed.

Lemma object_assign_lookup (h : heap) source overrides :
  (object_assign h source overrides).2 !! (object_assign h source overrides).1
  = Some (overrides ∪ deref h source).
Proof. apply lookup_insert_eq. Qed.

Lemma object_assign_lookup_ne (h : heap) source overrides l :
  l ∈ dom h →
  (object_assign h source overrides).2 !! l = h !! l.
Proof.
  intros Hl. unfold object_assign. cbn [snd]. apply lookup_insert_ne.
  intros <-. by apply (is_fresh (dom h)).
Qed.

Lemma object_assign_dom (h : heap) source overrides :
  dom h ⊆ dom (object_assign h source overrides).2.
Proof. unfold object_assign. cbn [snd]. rewrite dom_insert_L. set_solver. Qed.

(** The copy keeps the reference to the headers object of its source. *)
Lemma object_assign_headers (h : heap) source u :
  get (deref (object_assign h source (url_object u)).2
         (object_assign h source (url_object u)).1) "headers"
  = get (deref h source) "headers".
Proof.
  unfold deref at 1. rewrite object_assign_lookup. cbn [from_option id].
  unfold get. by rewrite lookup_union_r by apply url_object_no_headers.
Qed.

Section ApiHeap.
Context (P : Platform).

(** The world after one call: that of the caller when the call throws; or
    the world [w1] in which the request has been created and handed to
    the body writer, possibly with the request aborted or the body read;
    or the world the recursive call for a redirect leaves. *)
Lemma doApiRequest_step n options token requestProcessor redirectCount w :
  match prepare_options (objects w) options token with
  | inl _ =>
    (doApiRequest P (S n) options token requestProcessor redirectCount w).1 = w
  | inr h =>
    let w1 := log (EvBodyWriter requestProcessor (issued w))
                (net_request (read_request h options) (with_objects h w)).2 in
    (doApiRequest P (S n) options token requestProcessor redirectCount w).1
      ∈ [w1; log (EvAbort (issued w)) w1; log (EvReadBody (issued w)) w1]
    ∨ ∃ redirectUrl,
        (doApiRequest P (S n) options token requestProcessor redirectCount w).1
        = (doApiRequest P n
             (object_assign h options (url_object (parseUrl P redirectUrl))).1
             token requestProcessor None
             (with_objects
                (object_assign h options (url_object (parseUrl P redirectUrl))).2
                w1)).1
  end.
Proof.
  cbn [doApiRequest]. destruct (prepare_options _ _ _) as [e|h]; [done|].
  cbn [net_request]. cbn zeta.
  set (w1 := log _ _). clearbody w1.
  destruct (net P _) as [response|e| |]; [|left; set_solver..].
  assert (Hcontinue : ∀ redirectUrl (p : Promise),
    let '(l, h0) := object_assign h options (url_object (parseUrl P redirectUrl)) in
    (match doApiRequest P n l token requestProcessor None (with_objects h0 w1)
           return World * (Err + Promise) with
     | (w0, inl e) => (w0, inr (settle (Rejected e) p))
     | (w0, inr inner) => (w0, inr (follow inner p))
     end).1
    = (doApiRequest P n l token requestProcessor None (with_objects h0 w1)).1).
  { intros redirectUrl p.
    destruct (object_assign h options (url_object (parseUrl P redirectUrl))) as [l h0].
    by destruct (doApiRequest P n l token requestProcessor None (with_objects h0 w1))
      as [w0 [e|inner]]. }
  destruct (statusCode response =? 404);
    [|destruct (statusCode response =? 204); [left; set_solver|]].
  all: destruct (safeGetHeader P response "location") as [redirectUrl|];
         [|left; set_solver].
  all: destruct (10 <? default 0 redirectCount); [left; set_solver|].
  all: right; exists redirectUrl.
  all: specialize (Hcontinue redirectUrl).
  all: destruct (object_assign h options (url_object (parseUrl P redirectUrl)))
         as [l h0]; apply Hcontinue.
Qed.

(** The heap after one call. *)
Lemma doApiRequest_objects_step n options token requestProcessor redirectCount w :
  match prepare_options (objects w) options token with
  | inl _ =>
    objects (doApiRequest P (S n) options token requestProcessor redirectCount w).1
    = objects w
  | inr h =>
    objects (doApiRequest P (S n) options token requestProcessor redirectCount w).1 = h
    ∨ ∃ redirectUrl w1,
        objects w1 = h
        ∧ objects (doApiRequest P (S n) options token requestProcessor redirectCount w).1
          = objects (doApiRequest P n
                       (object_assign h options (url_object (parseUrl P redirectUrl))).1
                       token requestProcessor None
                       (with_objects
                          (object_assign h options (url_object (parseUrl P redirectUrl))).2
                          w1)).1
  end.
Proof.
  pose proof (doApiRequest_step n options token requestProcessor redirectCount w)
    as Hstep.
  destruct (prepare_options _ _ _) as [e|h]; [by rewrite Hstep|].
  destruct Hstep as [Hin | (redirectUrl & ->)].
  - left. repeat (apply elem_of_cons in Hin as [-> | Hin]; [done|]).
    by apply elem_of_nil in Hin.
  - right. eexists redirectUrl, _. split; [|reflexivity]. reflexivity.
Qed.

End ApiHeap.

Lemma prepare_options_lookup_ne (h : heap) options token h' l (o : object) :
  prepare_options h options token = inr h' →
  l ≠ options →
  h !! l = Some o →
  (∀ t, token = Some t → get (deref h options) "headers" = VRef l →
        o !! "authorization" = Some (VStr (authorization t))) →
  h' !! l = Some o.
Proof.
  intros ->%prepare_options_inr Hne Hl Hauth.
  rewrite lookup_alter_ne by done.
  destruct token as [t|]; [|done].
  destruct (get (deref h options) "headers") as [| | | | |hl] eqn:Hh; try done.
  destruct (decide (hl = l)) as [->|Hhl]; [|by rewrite lookup_alter_ne].
  rewrite lookup_alter_eq, Hl. cbn. f_equal. apply insert_id. by apply Hauth.
Qed.

Section ApiFrame.
Context (P : Platform).

(** After [prepare_options], the rest of a call leaves an object alone when
    writing the authorization header to it changes nothing. *)
Lemma doApiRequest_after_prepare n options token requestProcessor redirectCount w h l
    (x : object) :
  (∀ options' w' , objects w' !! l = Some x → l ≠ options' →
     (∀ t, token = Some t → get (deref (objects w') options') "headers" = VRef l →
           x !! "authorization" = Some (VStr (authorization t))) →
     objects (doApiRequest P n options' token requestProcessor None w').1 !! l = Some x) →
  prepare_options (objects w) options token = inr h →
  h !! l = Some x →
  (∀ t, token = Some t → get (deref (objects w) options) "headers" = VRef l →
        x !! "authorization" = Some (VStr (authorization t))) →
  objects (doApiRequest P (S n) options token requestProcessor redirectCount w).1 !! l
  = Some x.
Proof.
  intros Hinner Hprep Hl Hauth.
  pose proof (doApiRequest_objects_step P n options token requestProcessor
                redirectCount w) as Hstep.
  rewrite Hprep in Hstep.
  destruct Hstep as [-> | (redirectUrl & w1 & Hw1 & ->)]; [done|].
  assert (Hdom : l ∈ dom h) by by apply elem_of_dom.
  apply Hinner.
  - cbn [objects with_objects]. by rewrite object_assign_lookup_ne.
  - intros ->. by apply (object_assign_fresh h options (url_object (parseUrl P redirectUrl))).
  - intros t Ht. cbn [objects with_objects]. rewrite object_assign_headers.
    rewrite (prepare_options_get _ _ _ _ _ _ Hprep) by done. by apply Hauth.
Qed.

Lemma doApiRequest_frame fuel :
  ∀ options token requestProcessor redirectCount w l (x : object),
    objects w !! l = Some x →
    l ≠ options →
    (∀ t, token = Some t → get (deref (objects w) options) "headers" = VRef l →
          x !! "authorization" = Some (VStr (authorization t))) →
    objects (doApiRequest P fuel options token requestProcessor redirectCount w).1 !! l
    = Some x.
Proof.
  induction fuel as [|fuel IH];
    intros options token requestProcessor redirectCount w l x Hl Hne Hauth; [done|].
  destruct (prepare_options (objects w) options token) as [e|h] eqn:Hprep.
  - pose proof (doApiRequest_objects_step P fuel options token requestProcessor
                  redirectCount w) as Hstep.
    rewrite Hprep in Hstep. by rewrite Hstep.
  - apply (doApiRequest_after_prepare _ _ _ _ _ _ h); [|done| |done].
    + intros options' w'. apply IH.
    + by apply (prepare_options_lookup_ne _ _ _ _ _ _ Hprep).
Qed.

End ApiFrame.

(** ** The redirect count of the API request path *)

Lemma prepare_options_ok (h : heap) options token :
  token = None ∨ (∃ hl, get (deref h options) "headers" = VRef hl) →
  ∃ h', prepare_options h options token = inr h'.
Proof.
  unfold prepare_options, set_property. intros [-> | (hl & ->)]; [by eexists|].
  destruct token; by eexists.
Qed.

(** A pending promise that follows the recursive call ends as that call
    does. *)
Lemma followed_pending (X : World * (Err + Promise)) :
  match X return World * (Err + Promise) with
  | (w0, inl e) => (w0, inr (settle (Rejected e) None))
  | (w0, inr inner) => (w0, inr (follow inner None))
  end
  = (X.1, inr match X.2 with
              | inl e => Some (Rejected e)
              | inr p => p
              end).
Proof. by destruct X as [w0 [e|[x|]]]. Qed.

Section ApiRedirects.
Context (P : Platform).

(** The recursive call of [doApiRequest] is made without a redirect count,
    so that the count of the next attempt is the default, 0. *)
Lemma doApiRequest_redirect_step n options token requestProcessor redirectCount w h
    response redirectUrl :
  prepare_options (objects w) options token = inr h →
  net P (read_request h options) = TResponse response →
  statusCode response ≠ 404 →
  statusCode response ≠ 204 →
  safeGetHeader P response "location" = Some redirectUrl →
  default 0 redirectCount ≤ 10 →
  doApiRequest P (S n) options token requestProcessor redirectCount w
  = let inner :=
      doApiRequest P n
        (object_assign h options (url_object (parseUrl P redirectUrl))).1
        token requestProcessor None
        (with_objects (object_assign h options (url_object (parseUrl P redirectUrl))).2
           (log (EvBodyWriter requestProcessor (issued w))
              (net_request (read_request h options) (with_objects h w)).2)) in
    (inner.1, inr match inner.2 with
                  | inl e => Some (Rejected e)
                  | inr p => p
                  end).
Proof.
  intros Hprep Hnet H404 H204 Hloc Hcount.
  cbn [doApiRequest]. rewrite Hprep. cbn [net_request]. rewrite Hnet, Hloc.
  assert ((statusCode response =? 404) = false) as -> by by apply Nat.eqb_neq.
  assert ((statusCode response =? 204) = false) as -> by by apply Nat.eqb_neq.
  assert ((10 <? default 0 redirectCount) = false) as -> by (apply Nat.ltb_ge; lia).
  cbn zeta.
  destruct (object_assign h options (url_object (parseUrl P redirectUrl))) as [l h0].
  apply followed_pending.
Qed.

(** C2 (the code on a redirect chain that never ends).  Against a server
    that answers every request with a redirect, a call of [doApiRequest]
    without a redirect count follows one redirect per attempt for as
    many attempts as it is given, and its promise stays pending: each
    recursive call starts again from the count 0, the test against 10
    never succeeds, and the promise is not rejected with the
    too-many-redirects error. *)
Theorem doApiRequest_redirect_count_reset :
  (∀ r, ∃ response redirectUrl,
      net P r = TResponse response
      ∧ statusCode response ≠ 404 ∧ statusCode response ≠ 204
      ∧ safeGetHeader P response "location" = Some redirectUrl) →
  ∀ fuel options token requestProcessor w,
    token = None ∨ (∃ hl, get (deref (objects w) options) "headers" = VRef hl) →
    ∃ w', doApiRequest P fuel options token requestProcessor None w = (w', inr None)
          ∧ issued w' = issued w + fuel.
Proof.
  intros Hnet. induction fuel as [|fuel IH]; intros options token requestProcessor w Hh.
  { exists w. split; [reflexivity | lia]. }
  destruct (prepare_options_ok _ _ _ Hh) as (h & Hprep).
  destruct (Hnet (read_request h options))
    as (response & redirectUrl & Hr & H404 & H204 & Hloc).
  rewrite (doApiRequest_redirect_step _ _ _ _ _ _ _ _ _ Hprep Hr H404 H204 Hloc)
    by (cbn; lia).
  cbn zeta.
  match goal with
  | |- context [doApiRequest P fuel ?l token requestProcessor None ?v] =>
    destruct (IH l token requestProcessor v) as (w' & Hrun & Hissued)
  end.
  { destruct Hh as [-> | (hl & Hhl)]; [by left|]. right. exists hl.
    cbn [objects with_objects]. rewrite object_assign_headers.
    by rewrite (prepare_options_get _ _ _ _ _ _ Hprep). }
  exists w'. rewrite Hrun. split; [reflexivity|].
  rewrite Hissued. cbn. lia.
Qed.

End ApiRedirects.

(** C2 (witness): a server that always redirects; after 25 attempts the
    request with the token [abc] is still following redirects. *)
Lemma doApiRequest_redirect_count_reset_witness :
  ∃ w', doApiRequest Sample.looping 25 Sample.options (Some "abc") 0 None
          (Sample.world "/loop") = (w', inr None)
        ∧ issued w' = 25.
Proof.
  apply (doApiRequest_redirect_count_reset Sample.looping).
  - intros r. eexists _, _. split; [reflexivity|].
    split; [discriminate|]. split; [discriminate | reflexivity].
  - right. exists Sample.headers_loc. reflexivity.
Defined.

(** ** Writes to the caller's objects *)

Section ApiOptions.
Context (P : Platform).

(** C6 (amended).  [doApiRequest] writes to the caller's objects in place:
    after a call, the caller's options object has its [protocol] set to
    [https:], and when a token is given the caller's headers object has
    its [authorization] set; the other properties of both objects and
    all other objects of the caller are as before.  For a redirect,
    [Object.assign] makes a new object, at a location that was not in
    use, holding the properties of the options object as already
    written to, overridden by those of the parsed redirect URL; making
    it changes no existing object, and the next attempt runs on it. *)
Theorem doApiRequest_writes_options n options token requestProcessor redirectCount w
    (o : object) hl (ho : object) :
  objects w !! options = Some o →
  get o "headers" = VRef hl →
  hl ≠ options →
  objects w !! hl = Some ho →
  (objects (doApiRequest P (S n) options token requestProcessor redirectCount w).1
     !! options = Some (<["protocol" := VStr "https:"]> o))
  ∧ (objects (doApiRequest P (S n) options token requestProcessor redirectCount w).1
       !! hl
     = Some match token with
            | Some t => <["authorization" := VStr (authorization t)]> ho
            | None => ho
            end)
  ∧ (∀ l (x : object),
       objects w !! l = Some x → l ≠ options → l ≠ hl →
       objects (doApiRequest P (S n) options token requestProcessor redirectCount w).1
         !! l = Some x)
  ∧ ∃ h, prepare_options (objects w) options token = inr h
      ∧ ∀ redirectUrl,
          ((object_assign h options (url_object (parseUrl P redirectUrl))).1 ∉ dom h)
          ∧ (object_assign h options (url_object (parseUrl P redirectUrl))).2
              !! (object_assign h options (url_object (parseUrl P redirectUrl))).1
            = Some (url_object (parseUrl P redirectUrl)
                    ∪ (<["protocol" := VStr "https:"]> o))
          ∧ (∀ l, l ∈ dom h →
               (object_assign h options (url_object (parseUrl P redirectUrl))).2 !! l
               = h !! l)
          ∧ ∀ response,
              net P (read_request h options) = TResponse response →
              statusCode response ≠ 404 →
              statusCode response ≠ 204 →
              safeGetHeader P response "location" = Some redirectUrl →
              default 0 redirectCount ≤ 10 →
              ∃ w1,
                objects w1 = (object_assign h options
                                (url_object (parseUrl P redirectUrl))).2
                ∧ (doApiRequest P (S n) options token requestProcessor redirectCount w).1
                  = (doApiRequest P n
                       (object_assign h options (url_object (parseUrl P redirectUrl))).1
                       token requestProcessor None w1).1.
Proof.
  intros Ho Hheaders Hne Hho.
  assert (Hh : get (deref (objects w) options) "headers" = VRef hl).
  { unfold deref. by rewrite Ho. }
  set (h0 := match token with
             | Some t => alter (<["authorization" := VStr (authorization t)]>) hl (objects w)
             | None => objects w
             end).
  assert (Hprep : prepare_options (objects w) options token
                  = inr (alter (<["protocol" := VStr "https:"]>) options h0)).
  { unfold prepare_options, h0. destruct token as [t|]; [|done]. by rewrite Hh. }
  assert (Hopt : alter (<["protocol" := VStr "https:"]>) options h0 !! options
                 = Some (<["protocol" := VStr "https:"]> o)).
  { rewrite lookup_alter_eq. unfold h0. destruct token as [t|]; [|by rewrite Ho].
    by rewrite lookup_alter_ne, Ho by done. }
  assert (Hhl : alter (<["protocol" := VStr "https:"]>) options h0 !! hl
                = Some match token with
                       | Some t => <["authorization" := VStr (authorization t)]> ho
                       | None => ho
                       end).
  { rewrite lookup_alter_ne by done. unfold h0. destruct token as [t|]; [|done].
    by rewrite lookup_alter_eq, Hho. }
  split; [|split; [|split]].
  - apply (doApiRequest_after_prepare P _ _ _ _ _ _ _ _ _
             (λ options' w', doApiRequest_frame P n options' token requestProcessor
                               None w' options _) Hprep Hopt).
    intros t _ Heq. rewrite Hh in Heq. by simplify_eq.
  - apply (doApiRequest_after_prepare P _ _ _ _ _ _ _ _ _
             (λ options' w', doApiRequest_frame P n options' token requestProcessor
                               None w' hl _) Hprep Hhl).
    intros t -> _. apply lookup_insert_eq.
  - intros l x Hl Hlo Hlh.
    apply (doApiRequest_after_prepare P _ _ _ _ _ _ _ _ _
             (λ options' w', doApiRequest_frame P n options' token requestProcessor
                               None w' l _) Hprep).
    + apply (prepare_options_lookup_ne _ _ _ _ _ _ Hprep); [done..|].
      intros t _ Heq. rewrite Hh in Heq. by simplify_eq.
    + intros t _ Heq. rewrite Hh in Heq. by simplify_eq.
  - eexists. split; [exact Hprep|]. intros redirectUrl.
    split; [apply object_assign_fresh|].
    split; [rewrite object_assign_lookup; unfold deref; by rewrite Hopt|].
    split; [apply object_assign_lookup_ne|].
    intros response Hnet H404 H204 Hloc Hcount. eexists. split; [|
      by rewrite (doApiRequest_redirect_step P _ _ _ _ _ _ _ _ _
                    Hprep Hnet H404 H204 Hloc Hcount)].
    reflexivity.
Qed.

End ApiOptions.

(** C6 (witness): an options object with the protocol [http:] and a headers
    object without authorization, called with the token [abc]. *)
Lemma doApiRequest_writes_options_witness :
  objects (doApiRequest Sample.platform 1 Sample.options (Some "abc") 0 None
             (Sample.world "/release.json")).1 !! Sample.options
  = Some (<["protocol" := VStr "https:"]> (Sample.caller_options "/release.json"))
  ∧ objects (doApiRequest Sample.platform 1 Sample.options (Some "abc") 0 None
               (Sample.world "/release.json")).1 !! Sample.headers_loc
    = Some (<["authorization" := VStr "token abc"]> Sample.caller_headers).
Proof.
  destruct (doApiRequest_writes_options Sample.platform 0 Sample.options (Some "abc")
              0 None (Sample.world "/release.json")
              (Sample.caller_options "/release.json") Sample.headers_loc
              Sample.caller_headers)
    as (H1 & H2 & _); [reflexivity | reflexivity | discriminate | reflexivity |].
  split; [exact H1 | exact H2].
Defined.

(** C6 (counterexample).  The caller passes an options object whose
    protocol is [http:] and a headers object without [authorization];
    after the call the same two objects hold [https:] and the
    authorization header. *)
Lemma caller_options_mutated :
  get (deref (objects (Sample.world "/release.json")) Sample.options) "protocol"
    = VStr "http:"
  ∧ get (deref (objects (Sample.world "/release.json")) Sample.headers_loc)
      "authorization" = VUndefined
  ∧ get (deref (objects (doApiRequest Sample.platform 1 Sample.options (Some "abc") 0
                           None (Sample.world "/release.json")).1) Sample.options)
      "protocol" = VStr "https:"
  ∧ get (deref (objects (doApiRequest Sample.platform 1 Sample.options (Some "abc") 0
                           None (Sample.world "/release.json")).1) Sample.headers_loc)
      "authorization" = VStr "token abc"
  ∧ objects (doApiRequest Sample.platform 1 Sample.options (Some "abc") 0 None
               (Sample.world "/release.json")).1 !! Sample.options
    ≠ objects (Sample.world "/release.json") !! Sample.options.
Proof.
  split; [reflexivity|]. split; [reflexivity|].
  split; [vm_compute; reflexivity|]. split; [vm_compute; reflexivity|].
  intros Heq.
  assert (Hp : get (deref (objects (doApiRequest Sample.platform 1 Sample.options
                                      (Some "abc") 0 None
                                      (Sample.world "/release.json")).1)
                      Sample.options) "protocol" = VStr "http:").
  { unfold deref. rewrite Heq. reflexivity. }
  vm_compute in Hp. discriminate.
Qed.

(** ** The body writer and the requests of a call *)

Lemma request_ids_app t1 t2 :
  request_ids (t1 ++ t2) = request_ids t1 ++ request_ids t2.
Proof. apply omap_app. Qed.

Lemma written_by_app writer t1 t2 :
  written_by writer (t1 ++ t2) = written_by writer t1 ++ written_by writer t2.
Proof. apply omap_app. Qed.

Lemma filter_eq_not_elem (n : nat) (l : list nat) :
  n ∉ l → filter (λ id, id = n) l = [].
Proof.
  induction l as [|x l IH]; [done|]. intros Hn.
  rewrite filter_cons_False by set_solver. apply IH. set_solver.
Qed.

Lemma NoDup_filter_eq_length (n : nat) (l : list nat) :
  NoDup l → length (filter (λ id, id = n) l) ≤ 1.
Proof.
  induction 1 as [|x l Hx Hnd IH]; [cbn; lia|].
  destruct (decide (x = n)) as [->|Hne].
  - rewrite filter_cons_True by done. rewrite filter_eq_not_elem by done. cbn. lia.
  - by rewrite filter_cons_False.
Qed.

Lemma get_delete_ne (o : object) k k' : k ≠ k' → get (delete k' o) k = get o k.
Proof. intros Hne. unfold get. by rewrite lookup_delete_ne. Qed.

(** The world after following the recursive call is the world that call
    leaves. *)
Lemma followed_world (p : Promise) (X : World * (Err + Promise)) :
  (match X return World * (Err + Promise) with
   | (w0, inl e) => (w0, inr (settle (Rejected e) p))
   | (w0, inr inner) => (w0, inr (follow inner p))
   end).1 = X.1.
Proof. by destruct X as [w0 [e|inner]]. Qed.

Section ApiTrace.
Context (P : Platform).

(** The request made for the copy of the options that a redirect makes. *)
Lemma redirect_request_descriptor (h : heap) options token redirectUrl h' :
  prepare_options
    (object_assign h options (url_object (parseUrl P redirectUrl))).2
    (object_assign h options (url_object (parseUrl P redirectUrl))).1 token
  = inr h' →
  redirected_descriptor P
    (read_request h' (object_assign h options (url_object (parseUrl P redirectUrl))).1).
Proof.
  intros Hprep. exists redirectUrl.
  pose proof (object_assign_lookup h options (url_object (parseUrl P redirectUrl)))
    as Hl.
  set (l := (object_assign h options (url_object (parseUrl P redirectUrl))).1) in *.
  set (h2 := (object_assign h options (url_object (parseUrl P redirectUrl))).2) in *.
  cbn [read_request req_fields]. split.
  - rewrite get_delete_ne by done.
    pose proof (prepare_options_inr _ _ _ _ Hprep) as ->.
    apply get_deref_alter_insert_eq.
    destruct token as [t|]; [|by rewrite Hl].
    destruct (get (deref h2 l) "headers") as [| | | | |hl]; try by rewrite Hl.
    destruct (decide (hl = l)) as [->|Hne].
    + by rewrite lookup_alter_eq, Hl.
    + by rewrite lookup_alter_ne, Hl.
  - intros k v Hk Hproto.
    assert (k ≠ "headers") by (intros ->; by rewrite url_object_no_headers in Hk).
    assert (k ≠ "authorization") by (intros ->; discriminate Hk).
    rewrite get_delete_ne by done.
    rewrite (prepare_options_get _ _ _ _ _ _ Hprep) by done.
    unfold deref, get. rewrite Hl. cbn.
    by rewrite (lookup_union_Some_l _ _ _ _ Hk).
Qed.

Lemma doApiRequest_trace fuel : ∀ options token requestProcessor redirectCount w,
  ∃ new k,
    trace (doApiRequest P fuel options token requestProcessor redirectCount w).1
      = trace w ++ new
    ∧ issued (doApiRequest P fuel options token requestProcessor redirectCount w).1
      = issued w + k
    ∧ request_ids new = seq (issued w) k
    ∧ written_by requestProcessor new = seq (issued w) k
    ∧ match prepare_options (objects w) options token with
      | inl _ => requests_of new = []
      | inr h =>
        requests_of new = []
        ∨ ∃ rest, requests_of new = read_request h options :: rest
                  ∧ Forall (redirected_descriptor P) rest
      end.
Proof.
  induction fuel as [|fuel IH]; intros options token requestProcessor redirectCount w.
  { exists [], 0. cbn. rewrite app_nil_r, Nat.add_0_r.
    repeat split. destruct (prepare_options _ _ _); auto. }
  pose proof (doApiRequest_step P fuel options token requestProcessor redirectCount w)
    as Hstep.
  destruct (prepare_options (objects w) options token) as [e|h] eqn:Hprep.
  { rewrite Hstep. exists [], 0. cbn. rewrite app_nil_r, Nat.add_0_r. by repeat split. }
  cbn zeta in Hstep.
  set (w1 := log (EvBodyWriter requestProcessor (issued w))
               (net_request (read_request h options) (with_objects h w)).2) in *.
  assert (Htrace : trace w1 = trace w ++ [EvRequest (issued w) (read_request h options);
                                          EvBodyWriter requestProcessor (issued w)]).
  { subst w1. cbn. by rewrite <- app_assoc. }
  assert (Hissued : issued w1 = S (issued w)) by done.
  assert (Hwritten : written_by requestProcessor
                       [EvRequest (issued w) (read_request h options);
                        EvBodyWriter requestProcessor (issued w)] = [issued w]).
  { cbn. by rewrite decide_True. }
  clearbody w1.
  destruct Hstep as [Hin | (redirectUrl & ->)].
  - assert (∃ tail, trace (doApiRequest P (S fuel) options token requestProcessor
                             redirectCount w).1 = trace w1 ++ tail
                    ∧ issued (doApiRequest P (S fuel) options token requestProcessor
                                redirectCount w).1 = issued w1
                    ∧ request_ids tail = []
                    ∧ written_by requestProcessor tail = []
                    ∧ requests_of tail = []) as (tail & -> & -> & Hids & Hwr & Hreq).
    { repeat (apply elem_of_cons in Hin as [-> | Hin]);
        [exists [] | exists [EvAbort (issued w)] | exists [EvReadBody (issued w)] |
         by apply elem_of_nil in Hin]; cbn; by rewrite ?app_nil_r. }
    exists ([EvRequest (issued w) (read_request h options);
             EvBodyWriter requestProcessor (issued w)] ++ tail), 1.
    rewrite Htrace, Hissued, <- app_assoc.
    rewrite request_ids_app, written_by_app, requests_of_app, Hids, Hwr, Hreq, Hwritten.
    split; [done|]. split; [lia|]. split; [done|]. split; [done|].
    right. by exists [].
  - destruct (IH (object_assign h options (url_object (parseUrl P redirectUrl))).1
                token requestProcessor None
                (with_objects
                   (object_assign h options (url_object (parseUrl P redirectUrl))).2 w1))
      as (new & k & -> & -> & Hids & Hwr & Hreq).
    exists ([EvRequest (issued w) (read_request h options);
             EvBodyWriter requestProcessor (issued w)] ++ new), (S k).
    cbn [trace issued with_objects] in *. rewrite Htrace, Hissued, <- app_assoc.
    rewrite request_ids_app, written_by_app, requests_of_app, Hwritten.
    rewrite Hissued in Hids, Hwr. rewrite Hids, Hwr.
    split; [done|]. split; [lia|]. split; [done|]. split; [done|].
    right. exists (requests_of new). split; [done|].
    match type of Hreq with
    | match ?X with _ => _ end => destruct X as [e|h'] eqn:Hprep'
    end; [by rewrite Hreq|].
    destruct Hreq as [-> | (rest & -> & Hrest)]; [done|].
    constructor; [|done]. by apply (redirect_request_descriptor _ _ token).
Qed.

(** The request made for the copy of the options is the request of the
    hop after the request made for the options. *)
Lemma redirect_request_hop (h : heap) options token redirectUrl h' :
  redirects P (read_request h options) = Some redirectUrl →
  prepare_options
    (object_assign h options (url_object (parseUrl P redirectUrl))).2
    (object_assign h options (url_object (parseUrl P redirectUrl))).1 token
  = inr h' →
  hop P (read_request h options)
    (read_request h' (object_assign h options (url_object (parseUrl P redirectUrl))).1).
Proof.
  intros Hred Hprep. exists redirectUrl. split; [done|].
  destruct (redirect_request_descriptor h options token redirectUrl h' Hprep)
    as (u & Hproto & _).
  split; [done|]. clear u Hproto.
  pose proof (object_assign_lookup h options (url_object (parseUrl P redirectUrl)))
    as Hl.
  set (l := (object_assign h options (url_object (parseUrl P redirectUrl))).1) in *.
  set (h2 := (object_assign h options (url_object (parseUrl P redirectUrl))).2) in *.
  cbn [read_request req_fields]. split.
  - intros k v Hk Hproto.
    assert (k ≠ "headers") by (intros ->; by rewrite url_object_no_headers in Hk).
    assert (k ≠ "authorization") by (intros ->; discriminate Hk).
    rewrite get_delete_ne by done.
    rewrite (prepare_options_get _ _ _ _ _ _ Hprep) by done.
    unfold deref, get. rewrite Hl. cbn.
    by rewrite (lookup_union_Some_l _ _ _ _ Hk).
  - intros k Hk Hproto Hauth.
    destruct (decide (k = "headers")) as [->|Hheaders].
    { unfold get. by rewrite !lookup_delete_eq. }
    rewrite !get_delete_ne by done.
    rewrite (prepare_options_get _ _ _ _ _ _ Hprep) by done.
    unfold deref at 1. rewrite Hl. cbn [from_option id].
    unfold get. by rewrite lookup_union_r.
Qed.

(** The world after one call, by what the response handler does with the
    answer to the request. *)
Lemma doApiRequest_hop n options token requestProcessor redirectCount w h :
  prepare_options (objects w) options token = inr h →
  let w1 := log (EvBodyWriter requestProcessor (issued w))
              (net_request (read_request h options) (with_objects h w)).2 in
  match redirects P (read_request h options) with
  | Some redirectUrl =>
    if 10 <? default 0 redirectCount then
      (doApiRequest P (S n) options token requestProcessor redirectCount w).1 = w1
    else
      (doApiRequest P (S n) options token requestProcessor redirectCount w).1
      = (doApiRequest P n
           (object_assign h options (url_object (parseUrl P redirectUrl))).1
           token requestProcessor None
           (with_objects (object_assign h options (url_object (parseUrl P redirectUrl))).2
              w1)).1
  | None =>
    (doApiRequest P (S n) options token requestProcessor redirectCount w).1
      ∈ [w1; log (EvAbort (issued w)) w1; log (EvReadBody (issued w)) w1]
  end.
Proof.
  intros Hprep. cbn zeta. unfold redirects.
  cbn [doApiRequest]. rewrite Hprep. cbn [net_request].
  destruct (net P (read_request h options)) as [response|e| |]; [|set_solver..].
  assert (H404 : (statusCode response =? 404) = true →
                 (statusCode response =? 204) = false).
  { intros ->%Nat.eqb_eq. done. }
  destruct (statusCode response =? 404);
    [rewrite H404 by done | destruct (statusCode response =? 204); [set_solver|]].
  all: destruct (safeGetHeader P response "location") as [redirectUrl|];
         [|set_solver].
  all: destruct (10 <? default 0 redirectCount); [done|].
  all: destruct (object_assign h options (url_object (parseUrl P redirectUrl)))
         as [l h0]; apply followed_world.
Qed.

Lemma doApiRequest_chain token requestProcessor fuel : ∀ options redirectCount w,
  ∃ new,
    trace (doApiRequest P fuel options token requestProcessor redirectCount w).1
      = trace w ++ new
    ∧ match prepare_options (objects w) options token with
      | inl _ => new = []
      | inr h =>
        match fuel with
        | 0 => new = []
        | S _ =>
          ∃ rest, new = EvRequest (issued w) (read_request h options)
                        :: EvBodyWriter requestProcessor (issued w) :: rest
        end
      end
    ∧ (∀ i r r', requests_of new !! i = Some r →
                 requests_of new !! S i = Some r' → hop P r r')
    ∧ ((token = None ∨ ∃ hl, get (deref (objects w) options) "headers" = VRef hl) →
       default 0 redirectCount ≤ 10 →
       ∀ r redirectUrl,
         last (requests_of new) = Some r →
         redirects P r = Some redirectUrl →
         length (requests_of new) = fuel).
Proof.
  induction fuel as [|fuel IH]; intros options redirectCount w.
  { exists []. cbn [doApiRequest fst]. rewrite app_nil_r.
    split; [done|]. split; [by destruct (prepare_options _ _ _)|].
    split; [by intros i r r' H|by intros _ _ r u H]. }
  destruct (prepare_options (objects w) options token) as [e|h] eqn:Hprep.
  { pose proof (doApiRequest_step P fuel options token requestProcessor redirectCount w)
      as Hstep.
    rewrite Hprep in Hstep. rewrite Hstep. exists []. rewrite app_nil_r.
    split; [done|]. split; [done|].
    split; [by intros i r r' H|by intros _ _ r u H]. }
  pose proof (doApiRequest_hop fuel options token requestProcessor redirectCount w h
                Hprep) as Hhop.
  cbn zeta in Hhop.
  set (r0 := read_request h options) in *.
  set (w1 := log (EvBodyWriter requestProcessor (issued w))
               (net_request r0 (with_objects h w)).2) in *.
  assert (Htrace : trace w1 = trace w ++ [EvRequest (issued w) r0;
                                          EvBodyWriter requestProcessor (issued w)]).
  { subst w1. cbn. by rewrite <- app_assoc. }
  assert (Hobjects : objects w1 = h) by done.
  clearbody w1.
  assert (Hsingle : ∀ tail,
    requests_of tail = [] →
    (redirects P r0 = None ∨ 10 < default 0 redirectCount) →
    (∃ rest, [EvRequest (issued w) r0; EvBodyWriter requestProcessor (issued w)] ++ tail
             = EvRequest (issued w) r0 :: EvBodyWriter requestProcessor (issued w) :: rest)
    ∧ (∀ i r r',
         requests_of ([EvRequest (issued w) r0;
                       EvBodyWriter requestProcessor (issued w)] ++ tail) !! i = Some r →
         requests_of ([EvRequest (issued w) r0;
                       EvBodyWriter requestProcessor (issued w)] ++ tail) !! S i = Some r' →
         hop P r r')
    ∧ ((token = None ∨ ∃ hl, get (deref (objects w) options) "headers" = VRef hl) →
       default 0 redirectCount ≤ 10 →
       ∀ r redirectUrl,
         last (requests_of ([EvRequest (issued w) r0;
                             EvBodyWriter requestProcessor (issued w)] ++ tail)) = Some r →
         redirects P r = Some redirectUrl →
         length (requests_of ([EvRequest (issued w) r0;
                               EvBodyWriter requestProcessor (issued w)] ++ tail))
         = S fuel)).
  { intros tail Htail Hstop. rewrite requests_of_app, Htail.
    split; [by eexists|]. split; [by intros [|i] r r' ? ?|].
    intros _ Hle r u Hlast Hr. cbn in Hlast. simplify_eq.
    destruct Hstop as [Hstop | Hstop]; [congruence | lia]. }
  destruct (redirects P r0) as [redirectUrl|] eqn:Hred.
  - destruct (10 <? default 0 redirectCount) eqn:Hcount.
    + rewrite Hhop. exists [EvRequest (issued w) r0;
                            EvBodyWriter requestProcessor (issued w)].
      split; [done|].
      destruct (Hsingle []) as ((rest & Hrest) & Hhops & Hprog);
        [done | right; by apply Nat.ltb_lt |].
      rewrite app_nil_r in *. split; [by eexists|]. by split.
    + rewrite Hhop.
      destruct (IH (object_assign h options (url_object (parseUrl P redirectUrl))).1
                  None
                  (with_objects
                     (object_assign h options (url_object (parseUrl P redirectUrl))).2
                     w1))
        as (new & -> & Hfirst & Hhops & Hprog).
      cbn [objects issued trace with_objects] in *.
      exists ([EvRequest (issued w) r0; EvBodyWriter requestProcessor (issued w)] ++ new).
      rewrite Htrace, <- app_assoc. split; [done|]. split; [by eexists|].
      rewrite requests_of_app.
      change (requests_of [EvRequest (issued w) r0;
                           EvBodyWriter requestProcessor (issued w)]) with [r0].
      split.
      * intros [|i] r r' Hr Hr'; [|by apply (Hhops i)].
        cbn in Hr, Hr'. injection Hr as <-.
        match type of Hfirst with
        | match ?X with _ => _ end => destruct X as [e|h'] eqn:Hprep'
        end; [by rewrite Hfirst in Hr'|].
        destruct fuel as [|fuel]; [by rewrite Hfirst in Hr'|].
        destruct Hfirst as (rest & ->). cbn in Hr'. injection Hr' as <-.
        exact (redirect_request_hop h options token redirectUrl h' Hred Hprep').
      * intros Hwf _ r u Hlast Hr.
        assert (Hwf' : token = None
                       ∨ ∃ hl, get (deref (object_assign h options
                                             (url_object (parseUrl P redirectUrl))).2
                                      (object_assign h options
                                         (url_object (parseUrl P redirectUrl))).1)
                                 "headers" = VRef hl).
        { destruct Hwf as [-> | (hl & Hhl)]; [by left|]. right. exists hl.
          rewrite object_assign_headers.
          by rewrite (prepare_options_get _ _ _ _ _ _ Hprep). }
        destruct (requests_of new) as [|r1 reqs] eqn:Hreqs.
        -- destruct (prepare_options_ok _ _ _ Hwf') as (h' & Hprep').
           rewrite Hprep' in Hfirst. destruct fuel as [|fuel]; [done|].
           destruct Hfirst as (rest & ->). done.
        -- cbn [app length]. f_equal. apply (Hprog Hwf' (Nat.le_0_l _) r u); [|done].
           by rewrite <- Hlast.
  - assert (∃ tail, trace (doApiRequest P (S fuel) options token requestProcessor
                             redirectCount w).1 = trace w1 ++ tail
                    ∧ requests_of tail = []) as (tail & -> & Htail).
    { repeat (apply elem_of_cons in Hhop as [-> | Hhop]);
        [exists [] | exists [EvAbort (issued w)] | exists [EvReadBody (issued w)] |
         by apply elem_of_nil in Hhop]; cbn; by rewrite ?app_nil_r. }
    exists ([EvRequest (issued w) r0; EvBodyWriter requestProcessor (issued w)] ++ tail).
    rewrite Htrace, <- app_assoc. split; [done|].
    apply Hsingle; [done | by left].
Qed.

(** C5.  In the events of a call of [doApiRequest], the requests that
    the body writer is applied to are the requests the call creates, in
    the same order: every attempt creates a request that did not exist
    before and applies the body writer to that request, once.  The
    first request, for the caller's options, is written to at most
    once, and every later request has a descriptor made for a redirect
    target.  A call that does not throw and has an attempt to make
    starts by creating the request for the caller's options and
    applying the body writer to it.  Each later request is the request
    of the hop after the one before it: that one was answered by a
    redirect, and the later one is made for the URL of its location
    header.  When the options have a headers object or no token is
    given, and the redirect count is at most 10, the call stops making
    requests only when the last one is answered by something else than
    a redirect, or when it has no attempt left. *)
Theorem doApiRequest_body_writer fuel options token requestProcessor redirectCount w :
  ∃ new,
    trace (doApiRequest P fuel options token requestProcessor redirectCount w).1
      = trace w ++ new
    ∧ written_by requestProcessor new = request_ids new
    ∧ NoDup (request_ids new)
    ∧ Forall (λ id, issued w ≤ id) (request_ids new)
    ∧ length (filter (λ id, id = issued w) (written_by requestProcessor new)) ≤ 1
    ∧ Forall (redirected_descriptor P) (tail (requests_of new))
    ∧ match prepare_options (objects w) options token with
      | inl _ => new = []
      | inr h =>
        match fuel with
        | 0 => new = []
        | S _ =>
          ∃ rest, new = EvRequest (issued w) (read_request h options)
                        :: EvBodyWriter requestProcessor (issued w) :: rest
        end
      end
    ∧ (∀ i r r', requests_of new !! i = Some r →
                 requests_of new !! S i = Some r' → hop P r r')
    ∧ ((token = None ∨ ∃ hl, get (deref (objects w) options) "headers" = VRef hl) →
       default 0 redirectCount ≤ 10 →
       ∀ r redirectUrl,
         last (requests_of new) = Some r →
         redirects P r = Some redirectUrl →
         length (requests_of new) = fuel).
Proof.
  destruct (doApiRequest_trace fuel options token requestProcessor redirectCount w)
    as (new & k & Htrace & _ & Hids & Hwr & Hreq).
  destruct (doApiRequest_chain token requestProcessor fuel options redirectCount w)
    as (new' & Htrace' & Hfirst & Hhops & Hprog).
  assert (new' = new) as -> by (apply (app_inv_head (trace w)); congruence).
  exists new. rewrite Hwr, Hids.
  split; [done|]. split; [done|]. split; [apply NoDup_seq|].
  split; [apply Forall_seq; intros; lia|].
  split; [apply NoDup_filter_eq_length, NoDup_seq|].
  split; [|by split].
  destruct (prepare_options _ _ _) as [e|h]; [by rewrite Hreq|].
  by destruct Hreq as [-> | (rest & -> & Hrest)].
Qed.

End ApiTrace.

(** C5 (witness): three attempts against the server that always
    redirects: three requests, each with the body writer applied. *)
Lemma doApiRequest_body_writer_witness :
  ∃ new,
    trace (doApiRequest Sample.looping 3 Sample.options (Some "abc") 0 None
             (Sample.world "/loop")).1 = [] ++ new
    ∧ written_by 0 new = request_ids new
    ∧ length (requests_of new) = 3.
Proof.
  destruct (doApiRequest_body_writer Sample.looping 3 Sample.options (Some "abc") 0 None
              (Sample.world "/loop"))
    as (new & Htrace & Hwritten & _ & _ & _ & _ & Hfirst & _ & Hprog).
  exists new. split; [exact Htrace|]. split; [exact Hwritten|].
  rewrite sample_prepare in Hfirst. destruct Hfirst as (rest & ->).
  destruct (last (requests_of
                    (EvRequest (issued (Sample.world "/loop"))
                       (read_request
                          (alter (<["protocol" := VStr "https:"]>) Sample.options
                             (alter (<["authorization" := VStr "token abc"]>)
                                Sample.headers_loc (objects (Sample.world "/loop"))))
                          Sample.options)
                     :: EvBodyWriter 0 (issued (Sample.world "/loop")) :: rest)))
    as [r|] eqn:Hlast.
  - apply (Hprog (or_intror (ex_intro _ Sample.headers_loc eq_refl)) (Nat.le_0_l 10)
             r "https://example.com/loop" eq_refl eq_refl).
  - apply last_None in Hlast. discriminate Hlast.
Defined.

(** A request redirected twice: three requests, the paths of the location
    headers in turn, the body writer applied to each, and the outcome of
    the last response. *)
Example request_redirected_twice :
  (λ r, get (req_fields r) "path") <$> requests_of
     (trace (doApiRequest Sample.platform 5 Sample.options (Some "abc") 0 None
               (Sample.world "/moved.zip")).1)
    = [VStr "/moved.zip"; VStr "/file.zip"; VStr "/file-v2.zip"]
  ∧ written_by 0 (trace (doApiRequest Sample.platform 5 Sample.options (Some "abc") 0
                           None (Sample.world "/moved.zip")).1) = [0; 1; 2]
  ∧ snd (doApiRequest Sample.platform 5 Sample.options (Some "abc") 0 None
           (Sample.world "/moved.zip"))
    = inr (Some (Resolved (DStr "BYTES"))).
Proof. repeat split; vm_compute; reflexivity. Qed.

(** * Further properties *)

(** ** The events of a download *)

Lemma ended_ids_app t1 t2 : ended_ids (t1 ++ t2) = ended_ids t1 ++ ended_ids t2.
Proof. apply omap_app. Qed.

Lemma aborted_ids_app t1 t2 :
  aborted_ids (t1 ++ t2) = aborted_ids t1 ++ aborted_ids t2.
Proof. apply omap_app. Qed.

Lemma piped_app t1 t2 : piped (t1 ++ t2) = piped t1 ++ piped t2.
Proof. apply omap_app. Qed.

Lemma ensured_dirs_app t1 t2 :
  ensured_dirs (t1 ++ t2) = ensured_dirs t1 ++ ensured_dirs t2.
Proof. apply omap_app. Qed.

Section DownloadEvents.
Context (P : Platform).

Lemma doDownload_events fuel : ∀ url destination redirectCount options w,
  ∃ new k,
    trace (doDownload P fuel url destination redirectCount options w).1
      = trace w ++ new
    ∧ issued (doDownload P fuel url destination redirectCount options w).1
      = issued w + k
    ∧ k ≤ fuel
    ∧ (new = [] → k = 0)
    ∧ request_ids new = seq (issued w) k
    ∧ ended_ids new = seq (issued w) k
    ∧ ensured_dirs new = []
    ∧ (k = 0 →
       doDownload P fuel url destination redirectCount options w = (w, NotCalled))
    ∧ download_ending P options destination w
        (doDownload P fuel url destination redirectCount options w).1
        (doDownload P fuel url destination redirectCount options w).2 new.
Proof.
  induction fuel as [|fuel IH]; intros url destination redirectCount options w.
  { exists [], 0. cbn. rewrite app_nil_r, Nat.add_0_r.
    repeat split; try done. left. by repeat split. }
  cbn [doDownload net_request post_increment].
  set (r := requestOpts (parseUrl P url)).
  set (w1 := log _ _).
  assert (Htrace : trace w1 = trace w ++ [EvRequest (issued w) r; EvEnd (issued w)]).
  { subst w1. cbn. by rewrite <- app_assoc. }
  assert (Hissued : issued w1 = S (issued w)) by done.
  assert (Hfs : fs w1 = fs w) by done.
  clearbody w1.
  assert (Hplain : ∀ cb, cb ≠ Called None →
    ∃ new k,
      trace (w1, cb).1 = trace w ++ new ∧ issued (w1, cb).1 = issued w + k
      ∧ k ≤ S fuel ∧ (new = [] → k = 0)
      ∧ request_ids new = seq (issued w) k ∧ ended_ids new = seq (issued w) k
      ∧ ensured_dirs new = []
      ∧ (k = 0 → (w1, cb) = (w, NotCalled))
      ∧ download_ending P options destination w (w1, cb).1 (w1, cb).2 new).
  { intros cb Hcb. exists [EvRequest (issued w) r; EvEnd (issued w)], 1. cbn [fst snd].
    split; [done|]. split; [lia|]. split; [lia|]. split; [done|].
    split; [done|]. split; [done|]. split; [done|]. split; [lia|].
    left. by repeat split. }
  destruct (net P r) as [response|e| |].
  - destruct (400 <=? statusCode response) eqn:Hstatus; [by apply Hplain|].
    apply Nat.leb_gt in Hstatus.
    destruct (safeGetHeader P response "location") as [redirectUrl|] eqn:Hloc.
    + destruct (redirectCount <? maxRedirects P); [|by apply Hplain].
      destruct (IH redirectUrl destination redirectCount options w1)
        as (new & k & Hnew & Hk & Hle & Hnil & Hids & Hends & Hdirs & Hzero & Hend).
      exists ([EvRequest (issued w) r; EvEnd (issued w)] ++ new), (S k).
      rewrite Hnew, Hk, Htrace, Hissued, <- app_assoc.
      rewrite request_ids_app, ended_ids_app, ensured_dirs_app, Hids, Hends, Hdirs, Hissued.
      split; [done|]. split; [lia|]. split; [lia|]. split; [done|].
      split; [done|]. split; [done|]. split; [done|]. split; [lia|].
      unfold download_ending in Hend |- *.
      rewrite Hk, Hissued, Hfs in Hend. rewrite Hk, Hissued.
      rewrite aborted_ids_app, piped_app, last_app.
      assert (aborted_ids [EvRequest (issued w) r; EvEnd (issued w)] = []) as -> by done.
      assert (piped [EvRequest (issued w) r; EvEnd (issued w)] = []) as -> by done.
      rewrite !app_nil_l.
      replace (issued w + S k) with (S (issued w) + k) by lia.
      destruct Hend as [(? & ? & ? & ?) | [(? & ? & ? & ? & Hlast) | (? & ? & Hlast & ?)]].
      * by left.
      * right; left. by rewrite Hlast.
      * right; right. by rewrite Hlast.
    + destruct (configurePipes P options response destination (fs w1)) as [f cb]
        eqn:Hpipe.
      exists [EvRequest (issued w) r; EvEnd (issued w); EvPipe (issued w) destination], 1.
      cbn [fst snd trace issued with_fs log]. rewrite Htrace, Hissued, <- app_assoc.
      split; [done|]. split; [lia|]. split; [lia|]. split; [done|].
      split; [done|]. split; [done|]. split; [done|]. split; [lia|].
      right; right. cbn [fst snd fs issued with_fs log]. rewrite Hissued.
      split; [done|]. split; [done|]. split; [done|].
      exists response. rewrite <- Hfs. by repeat split.
  - by apply Hplain.
  - exists [EvRequest (issued w) r; EvEnd (issued w); EvAbort (issued w)], 1.
    cbn [fst snd trace issued log]. rewrite Htrace, Hissued, <- app_assoc.
    split; [done|]. split; [lia|]. split; [lia|]. split; [done|].
    split; [done|]. split; [done|]. split; [done|]. split; [lia|].
    right; left. cbn [fst snd fs issued log]. rewrite Hissued, Hfs. by repeat split.
  - by apply Hplain.
Qed.

End DownloadEvents.

Section DownloadFurther.
Context (P : Platform).

(** X1.  [download] asks for the parent directory of the destination once,
    before its first request, unless the options say to skip that; no
    redirect hop asks for a directory again. *)
Theorem download_ensures_directory fuel url destination
    (options : option DownloadOptions) w :
  ∃ rest,
    trace (download P fuel url destination options w).1
      = trace w
        ++ (if bool_decide (skipDirCreation <$> options = Some true) then []
            else [EvEnsureDir (dirname P destination)])
        ++ rest
    ∧ ensured_dirs rest = []
    ∧ request_ids rest = ended_ids rest.
Proof.
  unfold download.
  match goal with
  | |- context [doDownload P fuel url destination 0 ?o ?v] =>
    destruct (doDownload_events P fuel url destination 0 o v)
      as (new & k & Hnew & _ & _ & _ & Hids & Hends & Hdirs & _);
    destruct (doDownload P fuel url destination 0 o v) as [w' cb]
  end.
  exists new. cbn [fst] in *. rewrite Hnew, Hids, Hends. split; [|done].
  destruct options as [[[]]|]; cbn; by rewrite <- ?app_assoc.
Qed.

(** X2.  In a run of [doDownload], [configurePipes] is called at most
    once, for the destination asked for, and on the response to a
    request of the run that has a status below 400 and no location
    header: a response that is an error or a redirect is never piped.
    When nothing is piped, no file changes. *)
Theorem doDownload_file_system fuel : ∀ url destination redirectCount options w,
  ∃ new,
    trace (doDownload P fuel url destination redirectCount options w).1
      = trace w ++ new
    ∧ ((piped new = []
        ∧ fs (doDownload P fuel url destination redirectCount options w).1 = fs w)
       ∨ (∃ id r response,
            piped new = [(id, destination)]
            ∧ EvRequest id r ∈ new
            ∧ net P r = TResponse response
            ∧ statusCode response < 400
            ∧ safeGetHeader P response "location" = None)).
Proof.
  induction fuel as [|fuel IH]; intros url destination redirectCount options w.
  { exists []. cbn. rewrite app_nil_r. split; [done|]. by left. }
  cbn [doDownload net_request post_increment].
  set (r := requestOpts (parseUrl P url)).
  set (w1 := log _ _).
  assert (Htrace : trace w1 = trace w ++ [EvRequest (issued w) r; EvEnd (issued w)]).
  { subst w1. cbn. by rewrite <- app_assoc. }
  assert (Hfs : fs w1 = fs w) by done.
  clearbody w1.
  assert (Hplain : ∀ cb : Callback,
    ∃ new,
      trace (w1, cb).1 = trace w ++ new
      ∧ ((piped new = [] ∧ fs (w1, cb).1 = fs w)
         ∨ (∃ id r response,
              piped new = [(id, destination)]
              ∧ EvRequest id r ∈ new
              ∧ net P r = TResponse response
              ∧ statusCode response < 400
              ∧ safeGetHeader P response "location" = None))).
  { intros cb. eexists. split; [exact Htrace|]. by left. }
  destruct (net P r) as [response|e| |] eqn:Hnet; [|apply Hplain| |apply Hplain].
  - destruct (400 <=? statusCode response) eqn:Hstatus; [apply Hplain|].
    apply Nat.leb_gt in Hstatus.
    destruct (safeGetHeader P response "location") as [redirectUrl|] eqn:Hloc.
    + destruct (redirectCount <? maxRedirects P); [|apply Hplain].
      destruct (IH redirectUrl destination redirectCount options w1)
        as (new & Hnew & Hcase).
      exists ([EvRequest (issued w) r; EvEnd (issued w)] ++ new).
      rewrite Hnew, Htrace, <- app_assoc. split; [done|].
      rewrite piped_app.
      assert (piped [EvRequest (issued w) r; EvEnd (issued w)] = []) as -> by done.
      rewrite app_nil_l, <- Hfs.
      destruct Hcase as [? | (id & r' & response' & ? & Hin & ?)]; [by left | right].
      exists id, r', response'. split; [done|]. split; [|done].
      apply elem_of_app. by right.
    + destruct (configurePipes P options response destination (fs w1)) as [f cb].
      exists [EvRequest (issued w) r; EvEnd (issued w); EvPipe (issued w) destination].
      cbn [fst trace with_fs log]. rewrite Htrace, <- app_assoc. split; [done|].
      right. exists (issued w), r, response.
      split; [done|]. split; [by constructor|]. by repeat split.
  - exists [EvRequest (issued w) r; EvEnd (issued w); EvAbort (issued w)].
    cbn [fst trace log fs]. rewrite Htrace, <- app_assoc. split; [done|]. by left.
Qed.

End DownloadFurther.

Section DownloadOutcome.
Context (P : Platform).

(** X4.  When [download] resolves, it resolves with the destination path,
    and not before [configurePipes] has been called for that path on a
    response that is neither an error nor a redirect and has called back
    without error; the pipe is the last thing that happened. *)
Theorem download_resolves_after_pipe fuel url destination
    (options : option DownloadOptions) w v :
  snd (download P fuel url destination options w) = Some (Resolved v) →
  v = DStr destination
  ∧ ∃ new id response,
      trace (download P fuel url destination options w).1 = trace w ++ new
      ∧ last new = Some (EvPipe id destination)
      ∧ statusCode response < 400
      ∧ safeGetHeader P response "location" = None
      ∧ configurePipes P (default {| skipDirCreation := false |} options) response
          destination (fs w)
        = (fs (download P fuel url destination options w).1, Called None).
Proof.
  unfold download.
  set (v0 := match options with
             | Some o =>
               if skipDirCreation o then w
               else log (EvEnsureDir (dirname P destination)) w
             | None => log (EvEnsureDir (dirname P destination)) w
             end).
  assert (Hv0 : ∃ pre, trace v0 = trace w ++ pre ∧ fs v0 = fs w).
  { subst v0. destruct options as [[[]]|].
    - exists []. by rewrite app_nil_r.
    - by eexists.
    - by eexists. }
  destruct Hv0 as (pre & Hpre & Hfs). clearbody v0.
  destruct (doDownload_events P fuel url destination 0
              (default {| skipDirCreation := false |} options) v0)
    as (new & k & Hnew & _ & _ & _ & _ & _ & _ & _ & Hend).
  destruct (doDownload P fuel url destination 0 _ v0) as [w' cb].
  cbn [fst snd] in *. intros Hres.
  assert (cb = Called None) as ->.
  { destruct cb as [|[e|]]; by simplify_eq. }
  split; [by simplify_eq|].
  destruct Hend as [(_ & _ & _ & ?) | [(_ & _ & _ & ? & _) | (_ & _ & Hlast & response & ? & ? & Hpipe)]];
    [done..|].
  exists (pre ++ new), (pred (issued w')), response.
  rewrite Hnew, Hpre, <- app_assoc, last_app, Hlast, <- Hfs. by repeat split.
Qed.

End DownloadOutcome.

(** X4 (witness): the download of [/file.zip], redirected once. *)
Lemma download_resolves_after_pipe_witness :
  snd (download Sample.platform 2 "https://example.com/file.zip" "/tmp/out.zip" None
         (Sample.world "/"))
    = Some (Resolved (DStr "/tmp/out.zip"))
  ∧ ∃ new id response,
      trace (download Sample.platform 2 "https://example.com/file.zip" "/tmp/out.zip"
               None (Sample.world "/")).1 = [] ++ new
      ∧ last new = Some (EvPipe id "/tmp/out.zip")
      ∧ statusCode response < 400
      ∧ Sample.safeGetHeader response "location" = None
      ∧ Sample.configurePipes {| skipDirCreation := false |} response "/tmp/out.zip" ∅
        = (fs (download Sample.platform 2 "https://example.com/file.zip"
                 "/tmp/out.zip" None (Sample.world "/")).1, Called None).
Proof.
  split; [vm_compute; reflexivity|].
  apply (download_resolves_after_pipe Sample.platform 2 "https://example.com/file.zip"
           "/tmp/out.zip" None (Sample.world "/") (DStr "/tmp/out.zip")).
  vm_compute. reflexivity.
Defined.

(** ** The descriptors of the API requests *)

Lemma get_VRef (o : object) k l : get o k = VRef l → o !! k = Some (VRef l).
Proof. unfold get. destruct (o !! k) as [v|]; cbn; [by intros ->|done]. Qed.

Lemma with_authorization_idemp token (headers : object) :
  with_authorization token (with_authorization token headers)
  = with_authorization token headers.
Proof. destruct token; [apply insert_insert_eq | done]. Qed.

(** [prepare_options] on a caller's options object that has a headers
    object of its own. *)
Lemma prepare_options_wf (h : heap) options token (o : object) hl (ho : object) :
  h !! options = Some o →
  get o "headers" = VRef hl →
  hl ≠ options →
  h !! hl = Some ho →
  ∃ h', prepare_options h options token = inr h'
        ∧ h' !! options = Some (<["protocol" := VStr "https:"]> o)
        ∧ h' !! hl = Some (with_authorization token ho)
        ∧ dom h' = dom h
        ∧ read_request h' options
          = {| req_fields := delete "headers" (<["protocol" := VStr "https:"]> o);
               req_headers := Some (with_authorization token ho) |}.
Proof.
  intros Ho Hheaders Hne Hho.
  assert (Hh : get (deref h options) "headers" = VRef hl).
  { unfold deref. by rewrite Ho. }
  destruct (prepare_options_ok h options token) as (h' & Hprep); [by eauto|].
  exists h'. split; [done|].
  pose proof (prepare_options_dom _ _ _ _ Hprep) as Hdom.
  pose proof (prepare_options_inr _ _ _ _ Hprep) as ->.
  match goal with
  | |- context [alter _ options ?m] => set (h0 := m) in *
  end.
  assert (Hopt : alter (<["protocol" := VStr "https:"]>) options h0 !! options
                 = Some (<["protocol" := VStr "https:"]> o)).
  { rewrite lookup_alter_eq. subst h0. destruct token as [t|]; [|by rewrite Ho].
    by rewrite Hh, lookup_alter_ne, Ho. }
  assert (Hhl : alter (<["protocol" := VStr "https:"]>) options h0 !! hl
                = Some (with_authorization token ho)).
  { rewrite lookup_alter_ne by done. subst h0. destruct token as [t|]; [|done].
    by rewrite Hh, lookup_alter_eq, Hho. }
  clearbody h0.
  split; [done|]. split; [done|]. split; [done|].
  unfold read_request, deref. rewrite Hopt. cbn [from_option id].
  rewrite lookup_insert_ne by done. by rewrite (get_VRef _ _ _ Hheaders), Hhl.
Qed.

Section ApiDescriptors.
Context (P : Platform).

Lemma doApiRequest_descriptors token requestProcessor method hl (sent : object) fuel :
  ∀ options redirectCount w (o ho : object),
    objects w !! options = Some o →
    get o "method" = method →
    get o "headers" = VRef hl →
    hl ≠ options →
    objects w !! hl = Some ho →
    with_authorization token ho = sent →
    ∃ new,
      trace (doApiRequest P fuel options token requestProcessor redirectCount w).1
        = trace w ++ new
      ∧ Forall (api_descriptor method sent) (requests_of new).
Proof.
  induction fuel as [|fuel IH];
    intros options redirectCount w o ho Ho Hmethod Hheaders Hne Hho Hsent.
  { exists []. cbn. by rewrite app_nil_r. }
  destruct (prepare_options_wf _ _ token _ _ _ Ho Hheaders Hne Hho)
    as (h & Hprep & Hopt & Hhl & Hdom & Hread).
  pose proof (doApiRequest_step P fuel options token requestProcessor redirectCount w)
    as Hstep.
  rewrite Hprep in Hstep. cbn zeta in Hstep.
  set (w1 := log (EvBodyWriter requestProcessor (issued w))
               (net_request (read_request h options) (with_objects h w)).2) in *.
  assert (Htrace : trace w1 = trace w ++ [EvRequest (issued w) (read_request h options);
                                          EvBodyWriter requestProcessor (issued w)]).
  { subst w1. cbn. by rewrite <- app_assoc. }
  assert (Hfirst : api_descriptor method sent (read_request h options)).
  { rewrite Hread. unfold api_descriptor. cbn [req_fields req_headers].
    rewrite !get_delete_ne by done. unfold get.
    rewrite lookup_insert_eq, lookup_insert_ne by done.
    by rewrite Hsent. }
  clearbody w1.
  destruct Hstep as [Hin | (redirectUrl & ->)].
  - assert (∃ tail, trace (doApiRequest P (S fuel) options token requestProcessor
                             redirectCount w).1 = trace w1 ++ tail
                    ∧ requests_of tail = []) as (tail & -> & Htail).
    { repeat (apply elem_of_cons in Hin as [-> | Hin]);
        [exists [] | exists [EvAbort (issued w)] | exists [EvReadBody (issued w)] |
         by apply elem_of_nil in Hin]; cbn; by rewrite ?app_nil_r. }
    eexists. rewrite Htrace, <- app_assoc. split; [done|].
    rewrite requests_of_app, Htail, app_nil_r. cbn. by constructor.
  - pose proof (object_assign_lookup h options (url_object (parseUrl P redirectUrl)))
      as Hl.
    pose proof (object_assign_fresh h options (url_object (parseUrl P redirectUrl)))
      as Hfresh.
    destruct (IH (object_assign h options (url_object (parseUrl P redirectUrl))).1
                None
                (with_objects
                   (object_assign h options (url_object (parseUrl P redirectUrl))).2 w1)
                (url_object (parseUrl P redirectUrl) ∪ deref h options)
                (with_authorization token ho))
      as (new & -> & Hall).
    + done.
    + unfold deref, get. rewrite Hopt. cbn [from_option id].
      rewrite lookup_union_r by done. by rewrite lookup_insert_ne.
    + unfold deref, get. rewrite Hopt. cbn [from_option id].
      rewrite lookup_union_r by done. by rewrite lookup_insert_ne.
    + intros Heq. apply Hfresh. rewrite <- Heq. apply elem_of_dom. by rewrite Hhl.
    + cbn [objects with_objects]. rewrite object_assign_lookup_ne; [done|].
      apply elem_of_dom. by rewrite Hhl.
    + rewrite with_authorization_idemp. done.
    + eexists. cbn [trace with_objects]. rewrite Htrace, <- app_assoc.
      split; [done|]. rewrite requests_of_app. apply Forall_app. split; [|done].
      cbn. by constructor.
Qed.

(** X6.  For a caller whose options object has a method and a headers
    object of its own, every request of a call of [doApiRequest], the
    first one and the one of every redirect hop, is made with the
    protocol [https:], whatever protocol the caller or the redirect URL
    names, and with the caller's method. *)
Theorem doApiRequest_https_and_method fuel options token requestProcessor
    redirectCount w (o ho : object) hl :
  objects w !! options = Some o →
  get o "headers" = VRef hl →
  hl ≠ options →
  objects w !! hl = Some ho →
  ∃ new,
    trace (doApiRequest P fuel options token requestProcessor redirectCount w).1
      = trace w ++ new
    ∧ Forall (λ r, get (req_fields r) "protocol" = VStr "https:"
                   ∧ get (req_fields r) "method" = get o "method")
        (requests_of new).
Proof.
  intros Ho Hheaders Hne Hho.
  destruct (doApiRequest_descriptors token requestProcessor (get o "method") hl
              (with_authorization token ho) fuel options redirectCount w o ho)
    as (new & Hnew & Hall); try done.
  exists new. split; [done|].
  eapply Forall_impl; [exact Hall|]. by intros r (? & ? & _).
Qed.

(** X7.  For such a caller, every request of a call is sent with the same
    headers: the caller's headers, with the authorization header for the
    token when a token is given.  The token goes to the target of every
    redirect as well. *)
Theorem doApiRequest_headers_every_hop fuel options token requestProcessor
    redirectCount w (o ho : object) hl :
  objects w !! options = Some o →
  get o "headers" = VRef hl →
  hl ≠ options →
  objects w !! hl = Some ho →
  ∃ new,
    trace (doApiRequest P fuel options token requestProcessor redirectCount w).1
      = trace w ++ new
    ∧ Forall (λ r, req_headers r = Some (with_authorization token ho))
        (requests_of new)
    ∧ ∀ t, token = Some t →
        Forall (λ r, ∃ sent, req_headers r = Some sent
                             ∧ get sent "authorization" = VStr (authorization t)
                             ∧ ∀ k, k ≠ "authorization" → sent !! k = ho !! k)
          (requests_of new).
Proof.
  intros Ho Hheaders Hne Hho.
  destruct (doApiRequest_descriptors token requestProcessor (get o "method") hl
              (with_authorization token ho) fuel options redirectCount w o ho)
    as (new & Hnew & Hall); try done.
  exists new. split; [done|]. split.
  - eapply Forall_impl; [exact Hall|]. by intros r (_ & _ & ?).
  - intros t ->. eapply Forall_impl; [exact Hall|]. intros r (_ & _ & Hr).
    eexists. split; [exact Hr|]. cbn [with_authorization]. unfold get. split.
    + by rewrite lookup_insert_eq.
    + intros k Hk. by rewrite lookup_insert_ne.
Qed.

End ApiDescriptors.

(** X6 (witness): three attempts on [/loop], redirected each time. *)
Lemma doApiRequest_https_and_method_witness :
  get (Sample.caller_options "/loop") "protocol" = VStr "http:"
  ∧ ∃ new,
      trace (doApiRequest Sample.platform 3 Sample.options (Some "abc") 0 None
               (Sample.world "/loop")).1 = [] ++ new
      ∧ Forall (λ r, get (req_fields r) "protocol" = VStr "https:"
                     ∧ get (req_fields r) "method" = VStr "GET")
          (requests_of new).
Proof.
  split; [reflexivity|].
  apply (doApiRequest_https_and_method Sample.platform 3 Sample.options (Some "abc")
           0 None (Sample.world "/loop") (Sample.caller_options "/loop")
           Sample.caller_headers Sample.headers_loc);
    [reflexivity | reflexivity | discriminate | reflexivity].
Defined.

(** X7 (witness): the same three attempts. *)
Lemma doApiRequest_headers_every_hop_witness :
  ∃ new,
    trace (doApiRequest Sample.platform 3 Sample.options (Some "abc") 0 None
             (Sample.world "/loop")).1 = [] ++ new
    ∧ Forall (λ r, req_headers r
                   = Some (<["authorization" := VStr "token abc"]> Sample.caller_headers))
        (requests_of new).
Proof.
  destruct (doApiRequest_headers_every_hop Sample.platform 3 Sample.options
              (Some "abc") 0 None (Sample.world "/loop")
              (Sample.caller_options "/loop") Sample.caller_headers Sample.headers_loc)
    as (new & Hnew & Hall & _);
    [reflexivity | reflexivity | discriminate | reflexivity |].
  exists new. split; [exact Hnew | exact Hall].
Defined.

(** ** Error statuses of the API request path *)

Section ApiErrors.
Context (P : Platform).

(** X8.  An API response with a status of 400 or more other than 404 that
    is no redirect rejects the request with an HttpError for the
    response: with the body parsed as JSON as its description when the
    content type is JSON, without description otherwise.  The body is
    parsed even when it is empty, and when the parser throws, the
    request is rejected with what it throws. *)
Theorem doApiRequest_status_error n options token requestProcessor redirectCount w h
    response path isJson :
  prepare_options (objects w) options token = inr h →
  net P (read_request h options) = TResponse response →
  400 ≤ statusCode response →
  statusCode response ≠ 404 →
  safeGetHeader P response "location" = None →
  isJson_of (headers response !! "content-type") = inr isJson →
  get (deref (objects w) options) "path" = VStr path →
  snd (doApiRequest P (S n) options token requestProcessor redirectCount w)
  = inr (Some (Rejected
      (if isJson then
         match JSON_parse P (accumulate (body response)) with
         | inr v => HttpError response (Some v)
         | inl e => e
         end
       else HttpError response None)))
  ∧ body_reads (trace (doApiRequest P (S n) options token requestProcessor
                         redirectCount w).1)
    = body_reads (trace w) ++ [issued w].
Proof.
  intros Hprep Hnet Hge H404 Hloc Hjson Hpath.
  cbn [doApiRequest]. rewrite Hprep. cbn [net_request]. rewrite Hnet, Hloc.
  assert ((statusCode response =? 404) = false) as -> by by apply Nat.eqb_neq.
  assert ((statusCode response =? 204) = false) as -> by (apply Nat.eqb_neq; lia).
  cbn [fst snd]. split.
  - unfold on_end. rewrite Hjson.
    rewrite (prepare_options_get _ _ _ _ _ _ Hprep) by done.
    rewrite Hpath. cbn [path_includes].
    assert ((400 <=? statusCode response) = true) as -> by by apply Nat.leb_le.
    destruct isJson; [by destruct (JSON_parse P _)|done].
  - cbn [trace log with_objects]. unfold body_reads. by rewrite !omap_app, !app_nil_r.
Qed.

(** X9.  After a response with status 404 the response handler goes on:
    when the response has a location header (and the redirect count is
    at most 10) the world is the one the call for the redirect target
    leaves, so that this call is made although the promise is already
    rejected; when it has none, the body of the response is read. *)
Theorem doApiRequest_not_found_goes_on n options token requestProcessor redirectCount
    w h response :
  prepare_options (objects w) options token = inr h →
  net P (read_request h options) = TResponse response →
  statusCode response = 404 →
  default 0 redirectCount ≤ 10 →
  (doApiRequest P (S n) options token requestProcessor redirectCount w).1
  = match safeGetHeader P response "location" with
    | Some redirectUrl =>
      (doApiRequest P n
         (object_assign h options (url_object (parseUrl P redirectUrl))).1
         token requestProcessor None
         (with_objects (object_assign h options (url_object (parseUrl P redirectUrl))).2
            (log (EvBodyWriter requestProcessor (issued w))
               (net_request (read_request h options) (with_objects h w)).2))).1
    | None =>
      log (EvReadBody (issued w))
        (log (EvBodyWriter requestProcessor (issued w))
           (net_request (read_request h options) (with_objects h w)).2)
    end.
Proof.
  intros Hprep Hnet Hstatus Hcount.
  cbn [doApiRequest]. rewrite Hprep. cbn [net_request]. rewrite Hnet, Hstatus.
  rewrite Nat.eqb_refl.
  destruct (safeGetHeader P response "location") as [redirectUrl|]; [|done].
  assert ((10 <? default 0 redirectCount) = false) as -> by (apply Nat.ltb_ge; lia).
  destruct (object_assign h options (url_object (parseUrl P redirectUrl))) as [l h0].
  apply followed_world.
Qed.

(** X10.  With a token and an options object whose [headers] property is
    no object, the call throws a TypeError before anything else happens:
    no request is made and nothing is written, not even the protocol. *)
Theorem doApiRequest_throws_without_headers n options t requestProcessor
    redirectCount w :
  (∀ hl, get (deref (objects w) options) "headers" ≠ VRef hl) →
  ∃ message,
    doApiRequest P (S n) options (Some t) requestProcessor redirectCount w
    = (w, inl (TypeError message)).
Proof.
  intros Hno. cbn [doApiRequest]. unfold prepare_options, set_property.
  destruct (get (deref (objects w) options) "headers") as [| | | | |hl] eqn:Hh;
    try by eexists.
  by destruct (Hno hl).
Qed.

End ApiErrors.

(** X8 (witness): [/boom] is answered with status 500 and a JSON body. *)
Lemma doApiRequest_status_error_witness :
  snd (doApiRequest Sample.platform 1 Sample.options (Some "abc") 0 None
         (Sample.world "/boom"))
  = inr (Some (Rejected
      (HttpError
         {| statusCode := 500; statusMessage := "Internal Server Error";
            headers := {[ "content-type" := HMany ["application/json"] ]};
            body := ["{" +:+ dquote +:+ "message" +:+ dquote +:+ ":"
                     +:+ dquote +:+ "boom" +:+ dquote +:+ "}"] |}
         (Some (DObj [("message", DStr "boom")]))))).
Proof.
  destruct (doApiRequest_status_error Sample.platform 0 Sample.options (Some "abc") 0
              None (Sample.world "/boom") _
              {| statusCode := 500; statusMessage := "Internal Server Error";
                 headers := {[ "content-type" := HMany ["application/json"] ]};
                 body := ["{" +:+ dquote +:+ "message" +:+ dquote +:+ ":"
                          +:+ dquote +:+ "boom" +:+ dquote +:+ "}"] |}
              "/boom" true (sample_prepare "/boom")) as [H _].
  - reflexivity.
  - cbn. lia.
  - discriminate.
  - reflexivity.
  - reflexivity.
  - reflexivity.
  - exact H.
Defined.

(** X9 (witness): [/gone] is answered with status 404 and a location
    header; a second request is made, for the path [/landing]. *)
Lemma doApiRequest_not_found_goes_on_witness :
  request_ids (trace (doApiRequest Cases.platform 2 Sample.options None 0 None
                        (Sample.world "/gone")).1) = [0; 1]
  ∧ (λ r, get (req_fields r) "path") <$> requests_of
       (trace (doApiRequest Cases.platform 2 Sample.options None 0 None
                 (Sample.world "/gone")).1)
    = [VStr "/gone"; VStr "/landing"].
Proof.
  rewrite (doApiRequest_not_found_goes_on Cases.platform 1 Sample.options None 0 None
             (Sample.world "/gone")
             (alter (<["protocol" := VStr "https:"]>) Sample.options
                (objects (Sample.world "/gone")))
             {| statusCode := 404; statusMessage := "Not Found";
                headers := {[ "location" := HMany ["https://example.com/landing"] ]};
                body := [] |});
    [| reflexivity | reflexivity | reflexivity | cbn; lia].
  split; vm_compute; reflexivity.
Defined.

(** X10 (witness): an options object without headers, and a token. *)
Lemma doApiRequest_throws_without_headers_witness :
  ∃ message,
    doApiRequest Cases.platform 1 Sample.options (Some "abc") 0 None Cases.bare_world
    = (Cases.bare_world, inl (TypeError message)).
Proof.
  apply (doApiRequest_throws_without_headers Cases.platform 0 Sample.options "abc" 0
           None Cases.bare_world).
  intros hl. discriminate.
Defined.

(** ** The outcome and the events of an API request *)

Section ApiOutcome.
Context (P : Platform).

Lemma body_reads_app t1 t2 : body_reads (t1 ++ t2) = body_reads t1 ++ body_reads t2.
Proof. apply omap_app. Qed.

Lemma doApiRequest_events fuel : ∀ options token requestProcessor redirectCount w,
  ∃ new k,
    trace (doApiRequest P fuel options token requestProcessor redirectCount w).1
      = trace w ++ new
    ∧ issued (doApiRequest P fuel options token requestProcessor redirectCount w).1
      = issued w + k
    ∧ k ≤ fuel
    ∧ (k = 0 → new = [])
    ∧ fs (doApiRequest P fuel options token requestProcessor redirectCount w).1 = fs w
    ∧ api_ending
        (pred (issued (doApiRequest P fuel options token requestProcessor
                         redirectCount w).1)) new.
Proof.
  induction fuel as [|fuel IH]; intros options token requestProcessor redirectCount w.
  { exists [], 0. cbn. rewrite app_nil_r. repeat split; try lia. by left. }
  pose proof (doApiRequest_step P fuel options token requestProcessor redirectCount w)
    as Hstep.
  destruct (prepare_options (objects w) options token) as [e|h] eqn:Hprep.
  { rewrite Hstep. exists [], 0. rewrite app_nil_r. repeat split; try lia. by left. }
  cbn zeta in Hstep.
  set (w1 := log (EvBodyWriter requestProcessor (issued w))
               (net_request (read_request h options) (with_objects h w)).2) in *.
  assert (Htrace : trace w1 = trace w ++ [EvRequest (issued w) (read_request h options);
                                          EvBodyWriter requestProcessor (issued w)]).
  { subst w1. cbn. by rewrite <- app_assoc. }
  assert (Hissued : issued w1 = S (issued w)) by done.
  assert (Hfs : fs w1 = fs w) by done.
  assert (Hone : ∀ new : list Event, 1 = 0 → new = []) by (intros; lia).
  clearbody w1.
  destruct Hstep as [Hin | (redirectUrl & ->)].
  - repeat (apply elem_of_cons in Hin as [-> | Hin]); [| | |by apply elem_of_nil in Hin].
    + exists [EvRequest (issued w) (read_request h options);
              EvBodyWriter requestProcessor (issued w)], 1.
      rewrite Htrace, Hissued, Hfs. repeat split; try lia. by left.
    + exists [EvRequest (issued w) (read_request h options);
              EvBodyWriter requestProcessor (issued w); EvAbort (issued w)], 1.
      cbn [trace issued fs log]. rewrite Htrace, Hissued, Hfs, <- app_assoc.
      repeat split; try lia. right; right. by split.
    + exists [EvRequest (issued w) (read_request h options);
              EvBodyWriter requestProcessor (issued w); EvReadBody (issued w)], 1.
      cbn [trace issued fs log]. rewrite Htrace, Hissued, Hfs, <- app_assoc.
      repeat split; try lia. right; left. by split.
  - destruct (IH (object_assign h options (url_object (parseUrl P redirectUrl))).1
                token requestProcessor None
                (with_objects
                   (object_assign h options (url_object (parseUrl P redirectUrl))).2 w1))
      as (new & k & Hnew & Hk & Hle & _ & Hfs' & Hend).
    exists ([EvRequest (issued w) (read_request h options);
             EvBodyWriter requestProcessor (issued w)] ++ new), (S k).
    cbn [trace issued fs with_objects] in Hnew, Hk, Hfs'.
    rewrite Hnew, Htrace, <- app_assoc, Hk, Hissued, Hfs', Hfs.
    split; [done|]. split; [lia|]. split; [lia|]. split; [lia|]. split; [done|].
    rewrite Hk, Hissued in Hend.
    replace (issued w + S k) with (S (issued w) + k) by lia.
    unfold api_ending in *. by rewrite body_reads_app, aborted_ids_app.
Qed.

(** X12.  In a call of [doApiRequest] the response handler reads at
    most one body, and if so the body of the response to the last
    request the call makes: the body of a response that is followed as
    a redirect is never read.  The call writes no file. *)
Theorem doApiRequest_reads_last_body fuel options token requestProcessor redirectCount w :
  ∃ new,
    trace (doApiRequest P fuel options token requestProcessor redirectCount w).1
      = trace w ++ new
    ∧ fs (doApiRequest P fuel options token requestProcessor redirectCount w).1 = fs w
    ∧ (body_reads new = []
       ∨ ∃ id, last (request_ids new) = Some id ∧ body_reads new = [id]).
Proof.
  destruct (doApiRequest_events fuel options token requestProcessor redirectCount w)
    as (new & k & Hnew & Hk & Hle & Hzero & Hfs & Hend).
  destruct (doApiRequest_trace P fuel options token requestProcessor redirectCount w)
    as (new' & k' & Hnew' & Hk' & Hids & _).
  assert (new' = new) as -> by (apply (app_inv_head (trace w)); congruence).
  assert (k' = k) as -> by lia.
  exists new. rewrite Hids.
  split; [done|]. split; [done|].
  destruct Hend as [[? _] | [[Hread _] | [? _]]]; [by left | right | by left].
  exists (pred (issued (doApiRequest P fuel options token requestProcessor
                          redirectCount w).1)).
  split; [|done]. rewrite Hk. destruct k as [|k].
  - by rewrite (Hzero eq_refl) in Hread.
  - rewrite seq_S, last_snoc. f_equal. lia.
Qed.

End ApiOutcome.
